(** * renormlabs/assert: test assertions and the reporting spy

    A shallow embedding of [assert.go] (package [assert]) and of the spy of
    [internal/spy] (type [TBSpy]), with the properties of their
    specification.

    Go code that reports through a [testing.TB] is a state transformer on
    that reporting context; a run-time panic and the stopping of the
    goroutine are explicit outcomes. *)

From Stdlib Require Import ZArith List String Ascii Bool Arith Lia.
From Stdlib Require Import Floats.SpecFloat.
Import ListNotations.

Local Open Scope string_scope.
Local Open Scope list_scope.
Set Warnings "-register-all".

(* ===================================================================== *)
(** ** Go values *)
(* ===================================================================== *)

Module Go.

(** Go types, as far as dynamic types have to be told apart. *)
Inductive typ : Type :=
| TBool
| TInt
| TFloat64
| TString
| TNamed (name : string)
| TAny
| TPtr (elem : typ)
| TSlice (elem : typ)
| TMap (key elem : typ)
| TFunc.

Fixpoint typ_eqb (a b : typ) : bool :=
  match a, b with
  | TBool, TBool | TInt, TInt | TFloat64, TFloat64 | TString, TString => true
  | TNamed n, TNamed m => String.eqb n m
  | TAny, TAny | TFunc, TFunc => true
  | TPtr x, TPtr y => typ_eqb x y
  | TSlice x, TSlice y => typ_eqb x y
  | TMap k x, TMap l y => typ_eqb k l && typ_eqb x y
  | _, _ => false
  end.

(** The name of a type, as the run-time errors print it. *)
Fixpoint type_name (t : typ) : string :=
  match t with
  | TBool => "bool"
  | TInt => "int"
  | TFloat64 => "float64"
  | TString => "string"
  | TNamed name => name
  | TAny => "interface {}"
  | TPtr elem => String.append "*" (type_name elem)
  | TSlice elem => String.append "[]" (type_name elem)
  | TMap key elem =>
      String.append "map["
        (String.append (type_name key) (String.append "]" (type_name elem)))
  | TFunc => "func()"
  end.

(** A pointer is nil ([None]) or an address. *)
Definition ptr : Type := option nat.

Definition ptr_eqb (p q : ptr) : bool :=
  match p, q with
  | None, None => true
  | Some a, Some b => Nat.eqb a b
  | _, _ => false
  end.

(** [float64]: IEEE 754 binary64, with its NaN. *)
Definition float64 : Type := spec_float.

(** The dynamic value held by a non-nil interface value: a value tagged with
    its type.  Elements of slices and maps are interface values again
    ([None] is the nil interface). *)
Inductive dyn : Type :=
| DBool (b : bool)
| DInt (n : Z)
| DFloat64 (x : float64)
| DString (s : string)
| DNamed (name : string) (under : dyn)
| DPtr (elem : typ) (p : ptr)
| DSlice (elem : typ) (s : option (list (option dyn)))
| DMap (key elem : typ) (m : option (list (option dyn * option dyn)))
| DFunc (code : option nat).

(** The interface type [any]: nil, or a dynamic type with its value. *)
Definition any : Type := option dyn.

Definition type_of (d : dyn) : typ :=
  match d with
  | DBool _ => TBool
  | DInt _ => TInt
  | DFloat64 _ => TFloat64
  | DString _ => TString
  | DNamed name _ => TNamed name
  | DPtr elem _ => TPtr elem
  | DSlice elem _ => TSlice elem
  | DMap key elem _ => TMap key elem
  | DFunc _ => TFunc
  end.

(** [a == b] for two dynamic values of one dynamic type.  [None] is the
    run-time panic "comparing uncomparable type": slices, maps and functions
    have no [==]. *)
Fixpoint dyn_eq (a b : dyn) : option bool :=
  match a, b with
  | DBool x, DBool y => Some (Bool.eqb x y)
  | DInt x, DInt y => Some (Z.eqb x y)
  | DFloat64 x, DFloat64 y => Some (SFeqb x y)
  | DString x, DString y => Some (String.eqb x y)
  | DNamed _ x, DNamed _ y => dyn_eq x y
  | DPtr _ p, DPtr _ q => Some (ptr_eqb p q)
  | DSlice _ _, DSlice _ _ => None
  | DMap _ _ _, DMap _ _ _ => None
  | DFunc _, DFunc _ => None
  | _, _ => Some false
  end.

(** [x == y] on interface values: both nil, or identical dynamic types and
    equal dynamic values; values of different dynamic types are unequal and
    are not compared. *)
Definition iface_eq (x y : any) : option bool :=
  match x, y with
  | None, None => Some true
  | Some a, Some b =>
      if typ_eqb (type_of a) (type_of b) then dyn_eq a b else Some false
  | _, _ => Some false
  end.

(** [x != nil] on an interface value. *)
Definition is_nil (x : any) : bool :=
  match x with
  | None => true
  | Some _ => false
  end.

(** Every Go type has a name and its values convert to [any], which is what
    passing a value as an [any] or [...any] argument does.  A value of a
    concrete type becomes a non-nil interface value; a value of an interface
    type keeps its dynamic type and value, so a nil interface stays nil. *)
Class GoType (A : Type) : Type := {
  static_type : typ;
  to_any : A -> any
}.

Arguments static_type A {_}.

(** The constraint [comparable]: the types with [==] and [!=].  Since Go 1.20
    interface types satisfy it too, and their [==] panics at run time when
    the operands hold one dynamic type that is not comparable: [go_eq] is
    [None] then. *)
Class comparable (A : Type) : Type := {
  go_eq : A -> A -> option bool;
  (** The dynamic type without [==] that a value holds, if it holds one: the
      type the run-time panic of [==] and of hashing names. *)
  uncomparable_type : A -> option typ
}.

(** [x != y]. *)
Definition go_neq {A} `{comparable A} (x y : A) : option bool :=
  option_map negb (go_eq x y).

#[global] Instance GoType_bool : GoType bool :=
  {| static_type := TBool; to_any := fun b => Some (DBool b) |}.
#[global] Instance GoType_int : GoType Z :=
  {| static_type := TInt; to_any := fun n => Some (DInt n) |}.
#[global] Instance GoType_float64 : GoType float64 :=
  {| static_type := TFloat64; to_any := fun x => Some (DFloat64 x) |}.
#[global] Instance GoType_string : GoType string :=
  {| static_type := TString; to_any := fun s => Some (DString s) |}.
#[global] Instance GoType_any : GoType any :=
  {| static_type := TAny; to_any := fun x => x |}.

(** A pointer type [*E], for each pointee type [E]. *)
Record pointer (E : Type) : Type := Ptr { address : ptr }.
Arguments Ptr {E} address.
Arguments address {E} p.

#[global] Instance GoType_pointer {E} `{GoType E} : GoType (pointer E) :=
  {| static_type := TPtr (static_type E);
     to_any := fun p => Some (DPtr (static_type E) (address p)) |}.

(** A slice [[]E]: nil ([None]) or its elements. *)
Definition slice (E : Type) : Type := option (list E).

(** [len(s)] on a slice: a nil slice has length 0. *)
Definition slice_len {E} (s : slice E) : nat :=
  match s with
  | None => 0
  | Some l => List.length l
  end.

#[global] Instance GoType_slice {E} `{GoType E} : GoType (slice E) :=
  {| static_type := TSlice (static_type E);
     to_any := fun s =>
       Some (DSlice (static_type E) (option_map (map to_any) s)) |}.

(** A map [map[K]V]: nil ([None]) or its entries.  Keys are found with the
    [==] of [K], so an entry whose key is not equal to itself (a NaN) is
    counted by [len] and never found. *)
Definition gomap (K V : Type) : Type := option (list (K * V)).

(** [len(m)] on a map: a nil map has length 0. *)
Definition map_len {K V} (m : gomap K V) : nat :=
  match m with
  | None => 0
  | Some l => List.length l
  end.

Definition key_matches {K} `{comparable K} (key : K) (e : K) : bool :=
  match go_eq e key with
  | Some true => true
  | _ => false
  end.

(** [v, ok := m[key]].  [None] is the run-time panic "hash of unhashable
    type", raised for a key of interface type whose dynamic type is not
    comparable, on every map, the nil map and the empty map too. *)
Definition map_index {K V} `{comparable K} (m : gomap K V) (key : K)
  : option (option V) :=
  match go_eq key key with
  | None => None
  | Some _ =>
      Some match m with
           | None => None
           | Some l =>
               option_map snd (find (fun e => key_matches key (fst e)) l)
           end
  end.

#[global] Instance GoType_map {K V} `{GoType K} `{GoType V} : GoType (gomap K V) :=
  {| static_type := TMap (static_type K) (static_type V);
     to_any := fun m =>
       Some (DMap (static_type K) (static_type V)
               (option_map (map (fun e => (to_any (fst e), to_any (snd e)))) m)) |}.

#[global] Instance comparable_bool : comparable bool :=
  {| go_eq := fun x y => Some (Bool.eqb x y);
     uncomparable_type := fun _ => None |}.
#[global] Instance comparable_int : comparable Z :=
  {| go_eq := fun x y => Some (Z.eqb x y);
     uncomparable_type := fun _ => None |}.
#[global] Instance comparable_float64 : comparable float64 :=
  {| go_eq := fun x y => Some (SFeqb x y);
     uncomparable_type := fun _ => None |}.
#[global] Instance comparable_string : comparable string :=
  {| go_eq := fun x y => Some (String.eqb x y);
     uncomparable_type := fun _ => None |}.
#[global] Instance comparable_pointer {E} : comparable (pointer E) :=
  {| go_eq := fun p q => Some (ptr_eqb (address p) (address q));
     uncomparable_type := fun _ => None |}.

(** The dynamic type of an interface value when it has no [==]. *)
Definition dyn_uncomparable (x : any) : option typ :=
  match x with
  | None => None
  | Some d =>
      match dyn_eq d d with
      | None => Some (type_of d)
      | Some _ => None
      end
  end.

#[global] Instance comparable_any : comparable any :=
  {| go_eq := iface_eq;
     uncomparable_type := dyn_uncomparable |}.

(** How a call completes: it returns; or it panics with a payload; or it
    stops its goroutine ([runtime.Goexit], which [FailNow], [Fatal],
    [Fatalf] and [SkipNow] of a [*testing.T] call): then the deferred
    functions run, [recover()] returns nil in them, and no caller is ever
    returned to.  From Go 1.21 on the payload of a panic is never nil:
    [panic(nil)] raises a [*runtime.PanicNilError]. *)
Inductive completion (A : Type) : Type :=
| Normal (a : A)
| Panicking (payload : dyn)
| Exiting.

Arguments Normal {A} a.
Arguments Panicking {A} payload.
Arguments Exiting {A}.

(** A Go statement sequence that acts on a state [T] (the reporting context
    it was given) and completes with an [A], panics or stops the goroutine.
    A procedure handed to a check is such a sequence. *)
Definition Exec (T A : Type) : Type := T -> T * completion A.

Definition ret {T A} (a : A) : Exec T A := fun t => (t, Normal a).

Definition bind {T A B} (m : Exec T A) (k : A -> Exec T B) : Exec T B :=
  fun t =>
    match m t with
    | (t', Normal a) => k a t'
    | (t', Panicking v) => (t', Panicking v)
    | (t', Exiting) => (t', Exiting)
    end.

(** A method call on the state that completes normally. *)
Definition call {T} (method : T -> T) : Exec T unit :=
  fun t => (method t, Normal tt).

(** [runtime.Goexit()]. *)
Definition Goexit {T A} : Exec T A := fun t => (t, Exiting).

(** A call of [FailNow], [Fatal] or [Fatalf] on the context of the test
    framework, a [*testing.T]: the method marks the test and then stops the
    goroutine.  (The methods of a spy return: they are [call]s.) *)
Definition fatally {T} (method : T -> T) : Exec T unit :=
  fun t => (method t, Exiting).

Definition PanicNilError : dyn :=
  DPtr (TNamed "runtime.PanicNilError") (Some 0%nat).

(** The built-in [panic(v)]. *)
Definition panic {T A} (v : any) : Exec T A :=
  fun t => (t, Panicking match v with
                         | None => PanicNilError
                         | Some d => d
                         end).

(** The payload of a run-time panic: a [runtime.Error] whose message names
    the operation and the type.  (The Go type of the value differs between
    releases of the run time; its message is what is modelled.) *)
Definition run_time_error (message : string) (ty : option typ) : dyn :=
  DNamed "runtime.Error"
    (DString (String.append message
                match ty with
                | Some t => type_name t
                | None => EmptyString
                end)).

(** The panic of [x == y] and [x != y] on operands that hold a dynamic type
    without [==]. *)
Definition comparing_uncomparable {A} `{comparable A} (x : A) : dyn :=
  run_time_error "comparing uncomparable type " (uncomparable_type x).

(** The panic of a map index with a key that holds such a type. *)
Definition hash_of_unhashable {A} `{comparable A} (key : A) : dyn :=
  run_time_error "hash of unhashable type " (uncomparable_type key).

(** Evaluation of an operation that can panic at run time, with the payload
    of its panic. *)
Definition eval {T A} (payload : dyn) (o : option A) : Exec T A :=
  fun t =>
    match o with
    | Some a => (t, Normal a)
    | None => (t, Panicking payload)
    end.

(** A call of a function that returns a value or panics. *)
Definition returned {T A} (r : dyn + A) : Exec T A :=
  fun t =>
    match r with
    | inr a => (t, Normal a)
    | inl payload => (t, Panicking payload)
    end.

(** The built-in [recover()], called in a deferred function when the body
    has completed with [c]: nil unless the body is panicking. *)
Definition recover {A} (c : completion A) : any :=
  match c with
  | Normal _ => None
  | Panicking v => Some v
  | Exiting => None
  end.

(** [defer func() { r := recover(); handler r }(); body]: the body runs, then
    the deferred function, which always calls [recover()] and so stops a
    panic of the body.  The function then returns normally, unless the
    handler itself panics or the goroutine is stopping: a body that called
    [runtime.Goexit] is not resumed by [recover()].  The recovered value is
    handed on, for a function that stores it in a named result. *)
Definition defer_recover {T A} (handler : any -> Exec T unit) (body : Exec T A)
  : Exec T any :=
  fun t =>
    let (t1, c) := body t in
    let r := recover c in
    match handler r t1 with
    | (t2, Normal _) =>
        (t2, match c with
             | Exiting => Exiting
             | _ => Normal r
             end)
    | (t2, Panicking v) => (t2, Panicking v)
    | (t2, Exiting) => (t2, Exiting)
    end.

End Go.

Declare Scope go_scope.
Delimit Scope go_scope with go.
Notation "x <- m ;; k" := (Go.bind m (fun x => k))
  (at level 61, m at next level, right associativity) : go_scope.
Notation "m ;; k" := (Go.bind m (fun _ => k))
  (at level 61, right associativity) : go_scope.

(* ===================================================================== *)
(** ** The reporting context: [testing.TB] *)
(* ===================================================================== *)

Module testing.

(** The methods of the interface [testing.TB] that the package and the spy
    use or override, as transformers of the state behind the interface
    value. *)
Class TB (T : Type) : Type := {
  Helper : T -> T;
  Fail : T -> T;
  FailNow : T -> T;
  Error : list Go.any -> T -> T;
  Errorf : string -> list Go.any -> T -> T;
  Fatal : list Go.any -> T -> T;
  Fatalf : string -> list Go.any -> T -> T;
  Log : list Go.any -> T -> T;
  Logf : string -> list Go.any -> T -> T;
  Failed : T -> bool
}.

(** One call received by a reporting context. *)
Inductive Call : Type :=
| CHelper
| CFail
| CFailNow
| CError (args : list Go.any)
| CErrorf (format : string) (args : list Go.any)
| CFatal (args : list Go.any)
| CFatalf (format : string) (args : list Go.any)
| CLog (args : list Go.any)
| CLogf (format : string) (args : list Go.any).

(** The failure-reporting operations: they mark the test as failed. *)
Definition is_failure_report (c : Call) : bool :=
  match c with
  | CFail | CFailNow | CError _ | CErrorf _ _ | CFatal _ | CFatalf _ _ => true
  | CHelper | CLog _ | CLogf _ _ => false
  end.

(** The fatal ones: they also stop the test. *)
Definition is_fatal (c : Call) : bool :=
  match c with
  | CFailNow | CFatal _ | CFatalf _ _ => true
  | _ => false
  end.

(** The non-failing channel: helper marks and log output. *)
Definition is_passthrough (c : Call) : bool :=
  match c with
  | CHelper | CLog _ | CLogf _ _ => true
  | _ => false
  end.

(** The context of the test framework, observed through the calls it
    receives, oldest first.  It has failed when it has received a
    failure-reporting call.  That its fatal methods then stop the goroutine
    is not part of the record: a procedure that calls one of them on this
    context is [Go.fatally], not [Go.call]. *)
Definition Recorder : Type := list Call.

Definition record (c : Call) (t : Recorder) : Recorder := t ++ [c].

Definition failure_reports (t : Recorder) : nat :=
  List.length (filter is_failure_report t).

Definition fatal_reports (t : Recorder) : nat :=
  List.length (filter is_fatal t).

#[global] Instance TB_Recorder : TB Recorder := {|
  Helper := record CHelper;
  Fail := record CFail;
  FailNow := record CFailNow;
  Error := fun args => record (CError args);
  Errorf := fun format args => record (CErrorf format args);
  Fatal := fun args => record (CFatal args);
  Fatalf := fun format args => record (CFatalf format args);
  Log := fun args => record (CLog args);
  Logf := fun format args => record (CLogf format args);
  Failed := fun t => existsb is_failure_report t
|}.

(** A recorded call, made on any reporting context. *)
Definition perform {T} `{TB T} (c : Call) : T -> T :=
  match c with
  | CHelper => Helper
  | CFail => Fail
  | CFailNow => FailNow
  | CError args => Error args
  | CErrorf format args => Errorf format args
  | CFatal args => Fatal args
  | CFatalf format args => Fatalf format args
  | CLog args => Log args
  | CLogf format args => Logf format args
  end.

Definition replay {T} `{TB T} (calls : list Call) (t : T) : T :=
  fold_left (fun t c => perform c t) calls t.

End testing.

(* ===================================================================== *)
(** ** Library functions the package calls *)
(* ===================================================================== *)

Module strings.

(** [strings.Contains(s, substr)]: [substr] occurs within [s]. *)
Fixpoint Contains (s substr : string) : bool :=
  String.prefix substr s ||
  match s with
  | EmptyString => false
  | String _ rest => Contains rest substr
  end.

End strings.

Module reflect.

(** [reflect.DeepEqual] at a type: a total comparison by structure. *)
Class Deep (A : Type) : Type := {
  DeepEqual : A -> A -> bool
}.

#[global] Instance Deep_bool : Deep bool := {| DeepEqual := Bool.eqb |}.
#[global] Instance Deep_int : Deep Z := {| DeepEqual := Z.eqb |}.
#[global] Instance Deep_string : Deep string := {| DeepEqual := String.eqb |}.

Fixpoint list_deep {E} `{Deep E} (l m : list E) : bool :=
  match l, m with
  | [], [] => true
  | x :: l', y :: m' => DeepEqual x y && list_deep l' m'
  | _, _ => false
  end.

(** Slices: both nil or both non-nil, of one length, with deeply equal
    elements. *)
#[global] Instance Deep_slice {E} `{Deep E} : Deep (Go.slice E) :=
  {| DeepEqual := fun s r =>
       match s, r with
       | None, None => true
       | Some l, Some m => list_deep l m
       | _, _ => false
       end |}.

End reflect.

Module errors.

(** What an error value is made of.  [ident] stands for the value, its
    dynamic type included: two error values are the same value when they have
    the same [ident].  [comparable_type] tells whether its dynamic type is
    comparable ([reflect.Type.Comparable]).  [equals] is the outcome of [==]
    between this value and the error value of the given [ident]: it is false
    between values of different dynamic types; at one comparable type it
    compares the representations, so it can be false between a value and
    itself (a field holding a NaN) and it can panic ([inl], with the payload:
    an interface field holding a value without [==]).  [is_method] is its
    method [Is(error) bool], if it has one, on the [ident] of the target; a
    method can panic as well. *)
Record header : Type := {
  ident : nat;
  comparable_type : bool;
  equals : nat -> Go.dyn + bool;
  is_method : option (nat -> Go.dyn + bool)
}.

(** A non-nil error value: with no [Unwrap] method, with [Unwrap() error]
    (which may return nil), or with [Unwrap() []error]. *)
Inductive value : Type :=
| Leaf (h : header)
| Wrap (h : header) (cause : option value)
| Join (h : header) (causes : list (option value)).

(** The interface type [error]. *)
Definition error : Type := option value.

Definition head (e : value) : header :=
  match e with
  | Leaf h | Wrap h _ | Join h _ => h
  end.

(** [==] on pointers to distinct allocations: identity. *)
Definition pointer_equals (self : nat) : nat -> Go.dyn + bool :=
  fun other => inr (Nat.eqb self other).

(** [errors.New(text)]: a fresh pointer, comparable, without methods other
    than [Error]. *)
Definition New (fresh : nat) : value :=
  Leaf {| ident := fresh; comparable_type := true;
          equals := pointer_equals fresh; is_method := None |}.

(** [fmt.Errorf] with one [%w] verb: a fresh pointer that unwraps to
    [cause]. *)
Definition Errorf_w (fresh : nat) (cause : error) : value :=
  Wrap {| ident := fresh; comparable_type := true;
          equals := pointer_equals fresh; is_method := None |} cause.

(** [if a { return true }; b] on outcomes that can panic. *)
Definition orelse (a b : Go.dyn + bool) : Go.dyn + bool :=
  match a with
  | inl payload => inl payload
  | inr true => inr true
  | inr false => b
  end.

(** The two tests of one error of the chain against the target:
    [isComparable && err == target], then [err.Is(target)] when it has the
    method. *)
Definition test (targetComparable : bool) (target : value) (h : header)
  : Go.dyn + bool :=
  orelse (if targetComparable then equals h (ident (head target))
          else inr false)
         match is_method h with
         | Some p => p (ident (head target))
         | None => inr false
         end.

(** The loop [is] of package [errors]: a depth-first walk of the tree of
    causes, which stops at the first test that holds or panics. *)
Fixpoint is_ (err target : value) (targetComparable : bool) : Go.dyn + bool :=
  orelse (test targetComparable target (head err))
    match err with
    | Leaf _ => inr false
    | Wrap _ None => inr false
    | Wrap _ (Some cause) => is_ cause target targetComparable
    | Join _ causes =>
        (fix any_of (l : list (option value)) : Go.dyn + bool :=
           match l with
           | [] => inr false
           | None :: l' => any_of l'
           | Some c :: l' => orelse (is_ c target targetComparable) (any_of l')
           end) causes
    end.

(** The causes of a list that are not nil. *)
Fixpoint all_causes (P : value -> Prop) (l : list (option value)) : Prop :=
  match l with
  | [] => True
  | None :: l' => all_causes P l'
  | Some c :: l' => P c /\ all_causes P l'
  end.

(** The loop over the errors of [Unwrap() []error]. *)
Fixpoint any_cause (walk : value -> Go.dyn + bool) (l : list (option value))
  : Go.dyn + bool :=
  match l with
  | [] => inr false
  | None :: l' => any_cause walk l'
  | Some c :: l' => orelse (walk c) (any_cause walk l')
  end.

(** [errors.Is(err, target)]. *)
Definition Is (err target : error) : Go.dyn + bool :=
  match err, target with
  | None, None => inr true
  | None, Some _ | Some _, None => inr false
  | Some e, Some tg => is_ e tg (comparable_type (head tg))
  end.

End errors.

#[global] Instance GoType_error : Go.GoType errors.error :=
  {| Go.static_type := Go.TNamed "error";
     Go.to_any := fun err =>
       option_map (fun e => Go.DPtr (Go.TNamed "error")
                              (Some (errors.ident (errors.head e)))) err |}.

(* ===================================================================== *)
(** ** Package [assert] *)
(* ===================================================================== *)

(** Every function of the package takes the reporting context [t] first.
    Here [t] is the state of [Go.Exec T]: [Equalf expected actual format args]
    is the effect of [Equalf(t, expected, actual, format, args...)] on [t]. *)
Module assert.

Import Go.
Local Open Scope go_scope.

Section Checks.

Context {T : Type} `{testing.TB T}.

Definition Equalf {A} `{comparable A} (expected actual : A)
    (format : string) (args : list any) : Exec T unit :=
  call testing.Helper ;;
  differ <- eval (comparing_uncomparable expected) (go_neq expected actual) ;;
  if differ then call (testing.Errorf format args) else ret tt.

Definition Equal {A} `{GoType A} `{comparable A} (expected actual : A) : Exec T unit :=
  call testing.Helper ;;
  Equalf expected actual "expected %v to equal %v" [to_any actual; to_any expected].

Definition NotEqualf {A} `{comparable A} (expected actual : A)
    (format : string) (args : list any) : Exec T unit :=
  call testing.Helper ;;
  same <- eval (comparing_uncomparable expected) (go_eq expected actual) ;;
  if same then call (testing.Errorf format args) else ret tt.

Definition NotEqual {A} `{GoType A} `{comparable A} (expected actual : A) : Exec T unit :=
  call testing.Helper ;;
  NotEqualf expected actual "expected %v to not equal %v" [to_any actual; to_any expected].

Definition Truef (actual : bool) (format : string) (args : list any) : Exec T unit :=
  call testing.Helper ;;
  Equalf true actual format args.

Definition True (actual : bool) : Exec T unit :=
  call testing.Helper ;;
  Truef actual "expected %v to be true" [to_any actual].

Definition Falsef (actual : bool) (format : string) (args : list any) : Exec T unit :=
  call testing.Helper ;;
  Equalf false actual format args.

Definition False (actual : bool) : Exec T unit :=
  call testing.Helper ;;
  Falsef actual "expected %v to be false" [to_any actual].

Definition Nilf (actual : any) (format : string) (args : list any) : Exec T unit :=
  call testing.Helper ;;
  if negb (is_nil actual) then call (testing.Errorf format args) else ret tt.

Definition Nil (actual : any) : Exec T unit :=
  call testing.Helper ;;
  Nilf actual "expected %v to be nil" [actual].

Definition NotNilf (actual : any) (format : string) (args : list any) : Exec T unit :=
  call testing.Helper ;;
  if is_nil actual then call (testing.Errorf format args) else ret tt.

Definition NotNil (actual : any) : Exec T unit :=
  call testing.Helper ;;
  NotNilf actual "expected %v to not be nil" [actual].

Definition StringContainsf (str substr : string)
    (format : string) (args : list any) : Exec T unit :=
  call testing.Helper ;;
  if negb (strings.Contains str substr)
  then call (testing.Errorf format args) else ret tt.

Definition StringContains (str substr : string) : Exec T unit :=
  call testing.Helper ;;
  StringContainsf str substr "expected %v to contain the substring %v"
    [to_any str; to_any substr].

Definition StringDoesNotContainf (str substr : string)
    (format : string) (args : list any) : Exec T unit :=
  call testing.Helper ;;
  if strings.Contains str substr
  then call (testing.Errorf format args) else ret tt.

Definition StringDoesNotContain (str substr : string) : Exec T unit :=
  call testing.Helper ;;
  StringDoesNotContainf str substr "expected %v to not contain the substring %v"
    [to_any str; to_any substr].

(** The deferred function stores [recover()] in the named result
    [recovery] and reports when it is nil; then [f] is called. *)
Definition Panicsf (f : Exec T unit) (format : string) (args : list any) : Exec T any :=
  call testing.Helper ;;
  defer_recover
    (fun recovery =>
       if is_nil recovery then call (testing.Errorf format args) else ret tt)
    f.

Definition Panics (f : Exec T unit) : Exec T any :=
  call testing.Helper ;;
  Panicsf f "expected function to panic, did not panic" [].

Definition DoesNotPanicf (f : Exec T unit) (format : string) (args : list any) : Exec T unit :=
  call testing.Helper ;;
  defer_recover
    (fun r =>
       if negb (is_nil r) then call (testing.Errorf format args) else ret tt)
    f ;;
  ret tt.

Definition DoesNotPanic (f : Exec T unit) : Exec T unit :=
  call testing.Helper ;;
  DoesNotPanicf f "expected function to not panic, did panic" [].

Definition ErrorIsf (err target : errors.error)
    (format : string) (args : list any) : Exec T unit :=
  call testing.Helper ;;
  matched <- returned (errors.Is err target) ;;
  if negb matched then call (testing.Errorf format args) else ret tt.

Definition ErrorIs (err target : errors.error) : Exec T unit :=
  call testing.Helper ;;
  ErrorIsf err target "expected error %v to be %v" [to_any err; to_any target].

Definition ErrorIsNotf (err target : errors.error)
    (format : string) (args : list any) : Exec T unit :=
  call testing.Helper ;;
  matched <- returned (errors.Is err target) ;;
  if matched then call (testing.Errorf format args) else ret tt.

Definition ErrorIsNot (err target : errors.error) : Exec T unit :=
  call testing.Helper ;;
  ErrorIsNotf err target "expected error %v to not be %v" [to_any err; to_any target].

(** The [ok] of [_, ok := m[key]]. *)
Definition found {V} (r : option V) : bool :=
  match r with
  | Some _ => true
  | None => false
  end.

Definition MapContainsKeyf {K V} `{comparable K} (m : gomap K V) (key : K)
    (format : string) (args : list any) : Exec T unit :=
  call testing.Helper ;;
  r <- eval (hash_of_unhashable key) (map_index m key) ;;
  if negb (found r) then call (testing.Errorf format args) else ret tt.

Definition MapContainsKey {K V} `{GoType K} `{comparable K}
    (m : gomap K V) (key : K) : Exec T unit :=
  call testing.Helper ;;
  MapContainsKeyf m key "expected map to contain key %v" [to_any key].

Definition MapDoesNotContainKeyf {K V} `{comparable K} (m : gomap K V) (key : K)
    (format : string) (args : list any) : Exec T unit :=
  call testing.Helper ;;
  r <- eval (hash_of_unhashable key) (map_index m key) ;;
  if found r then call (testing.Errorf format args) else ret tt.

Definition MapDoesNotContainKey {K V} `{GoType K} `{comparable K}
    (m : gomap K V) (key : K) : Exec T unit :=
  call testing.Helper ;;
  MapDoesNotContainKeyf m key "expected map to not contain key %v" [to_any key].

Definition EmptyMapf {K V} (m : gomap K V)
    (format : string) (args : list any) : Exec T unit :=
  call testing.Helper ;;
  if negb (Nat.eqb (map_len m) 0)
  then call (testing.Errorf format args) else ret tt.

Definition EmptyMap {K V} `{GoType K} `{GoType V} (m : gomap K V) : Exec T unit :=
  call testing.Helper ;;
  EmptyMapf m "expected map %v to be empty" [to_any m].

Definition NotEmptyMapf {K V} (m : gomap K V)
    (format : string) (args : list any) : Exec T unit :=
  call testing.Helper ;;
  if Nat.eqb (map_len m) 0
  then call (testing.Errorf format args) else ret tt.

Definition NotEmptyMap {K V} `{GoType K} `{GoType V} (m : gomap K V) : Exec T unit :=
  call testing.Helper ;;
  NotEmptyMapf m "expected map %v to not be empty" [to_any m].

Definition EmptySlicef {E} (slice : Go.slice E)
    (format : string) (args : list any) : Exec T unit :=
  call testing.Helper ;;
  if negb (Nat.eqb (slice_len slice) 0)
  then call (testing.Errorf format args) else ret tt.

Definition EmptySlice {E} `{GoType E} (slice : Go.slice E) : Exec T unit :=
  call testing.Helper ;;
  EmptySlicef slice "expected slice %v to be empty" [to_any slice].

Definition NotEmptySlicef {E} (slice : Go.slice E)
    (format : string) (args : list any) : Exec T unit :=
  call testing.Helper ;;
  if Nat.eqb (slice_len slice) 0
  then call (testing.Errorf format args) else ret tt.

Definition NotEmptySlice {E} `{GoType E} (slice : Go.slice E) : Exec T unit :=
  call testing.Helper ;;
  NotEmptySlicef slice "expected slice %v to not be empty" [to_any slice].

Definition DeepEqualf {A} `{reflect.Deep A} (expected actual : A)
    (format : string) (args : list any) : Exec T unit :=
  call testing.Helper ;;
  if negb (reflect.DeepEqual expected actual)
  then call (testing.Errorf format args) else ret tt.

Definition DeepEqual {A} `{GoType A} `{reflect.Deep A} (expected actual : A) : Exec T unit :=
  call testing.Helper ;;
  DeepEqualf expected actual "expected %v to reflect.DeepEqual %v"
    [to_any actual; to_any expected].

Definition NotDeepEqualf {A} `{reflect.Deep A} (expected actual : A)
    (format : string) (args : list any) : Exec T unit :=
  call testing.Helper ;;
  if reflect.DeepEqual expected actual
  then call (testing.Errorf format args) else ret tt.

Definition NotDeepEqual {A} `{GoType A} `{reflect.Deep A} (expected actual : A) : Exec T unit :=
  call testing.Helper ;;
  NotDeepEqualf expected actual "expected %v to not reflect.DeepEqual %v"
    [to_any actual; to_any expected].

End Checks.

End assert.

(* ===================================================================== *)
(** ** Package [spy] *)
(* ===================================================================== *)

Module spy.

(** [TBSpy] embeds the wrapped [testing.TB] and adds the flag.  A [*TBSpy]
    is the one mutable object of a test: its methods transform it. *)
Record TBSpy (W : Type) : Type := {
  TB : W;
  failed : bool
}.

Arguments TB {W} _.
Arguments failed {W} _.

Section Spy.

Context {W : Type} `{testing.TB W}.

Definition SpyOn (t : W) : TBSpy W := {| TB := t; failed := false |}.

Definition SpiedOnAFailure (s : TBSpy W) : bool := failed s.

(** [s.TB.method(...)]. *)
Definition on_TB (method : W -> W) (s : TBSpy W) : TBSpy W :=
  {| TB := method (TB s); failed := failed s |}.

(** [s.failed = b]. *)
Definition set_failed (b : bool) (s : TBSpy W) : TBSpy W :=
  {| TB := TB s; failed := b |}.

Definition Fail (s : TBSpy W) : TBSpy W :=
  let s := on_TB testing.Helper s in
  set_failed true s.

Definition FailNow (s : TBSpy W) : TBSpy W :=
  let s := on_TB testing.Helper s in
  set_failed true s.

Definition Error (args : list Go.any) (s : TBSpy W) : TBSpy W :=
  let s := on_TB testing.Helper s in
  let s := set_failed true s in
  on_TB (testing.Log args) s.

Definition Errorf (format : string) (args : list Go.any) (s : TBSpy W) : TBSpy W :=
  let s := on_TB testing.Helper s in
  let s := set_failed true s in
  on_TB (testing.Logf format args) s.

Definition Fatalf (format : string) (args : list Go.any) (s : TBSpy W) : TBSpy W :=
  let s := on_TB testing.Helper s in
  let s := set_failed true s in
  on_TB (testing.Logf format args) s.

Definition Fatal (args : list Go.any) (s : TBSpy W) : TBSpy W :=
  let s := on_TB testing.Helper s in
  let s := set_failed true s in
  on_TB (testing.Log args) s.

(** A function of package [assert] called with [s.TB] as its context. *)
Definition with_TB {A} (check : Go.Exec W A) : Go.Exec (TBSpy W) A :=
  fun s =>
    let (t, c) := check (TB s) in
    ({| TB := t; failed := failed s |}, c).

Definition ExpectFailure : Go.Exec (TBSpy W) unit :=
  fun s =>
    let s := on_TB testing.Helper s in
    with_TB (assert.Truef (failed s)
               "[spy] Expected test failure but got success" []) s.

Definition ExpectSuccess : Go.Exec (TBSpy W) unit :=
  fun s =>
    let s := on_TB testing.Helper s in
    with_TB (assert.Falsef (failed s)
               "[spy] Expected test success but got failure" []) s.

(** [*TBSpy] is a [testing.TB]: its own six methods, and the methods of the
    embedded context for the rest. *)
#[global] Instance TB_TBSpy : testing.TB (TBSpy W) := {|
  testing.Helper := on_TB testing.Helper;
  testing.Fail := Fail;
  testing.FailNow := FailNow;
  testing.Error := Error;
  testing.Errorf := Errorf;
  testing.Fatal := Fatal;
  testing.Fatalf := Fatalf;
  testing.Log := fun args => on_TB (testing.Log args);
  testing.Logf := fun format args => on_TB (testing.Logf format args);
  testing.Failed := fun s => testing.Failed (TB s)
|}.

(** The operations of a [*TBSpy]. *)
Inductive Op : Type :=
| OFail
| OFailNow
| OError (args : list Go.any)
| OErrorf (format : string) (args : list Go.any)
| OFatalf (format : string) (args : list Go.any)
| OFatal (args : list Go.any)
| OSpiedOnAFailure
| OExpectFailure
| OExpectSuccess
| OHelper
| OLog (args : list Go.any)
| OLogf (format : string) (args : list Go.any)
| OFailed.

(** The six failure-reporting operations the spy intercepts. *)
Definition intercepted (o : Op) : bool :=
  match o with
  | OFail | OFailNow | OError _ | OErrorf _ _ | OFatalf _ _ | OFatal _ => true
  | _ => false
  end.

(** The spy after an operation. *)
Definition step (s : TBSpy W) (o : Op) : TBSpy W :=
  match o with
  | OFail => Fail s
  | OFailNow => FailNow s
  | OError args => Error args s
  | OErrorf format args => Errorf format args s
  | OFatalf format args => Fatalf format args s
  | OFatal args => Fatal args s
  | OSpiedOnAFailure => s
  | OExpectFailure => fst (ExpectFailure s)
  | OExpectSuccess => fst (ExpectSuccess s)
  | OHelper => testing.Helper s
  | OLog args => testing.Log args s
  | OLogf format args => testing.Logf format args s
  | OFailed => s
  end.

Definition run (ops : list Op) (s : TBSpy W) : TBSpy W :=
  fold_left step ops s.

End Spy.

End spy.

(* ===================================================================== *)
(** ** The checks of the package, as one family *)
(* ===================================================================== *)

Module checks.

Import Go.
Local Open Scope go_scope.

(** A check of the package with its checked inputs. *)
Inductive check (T : Type) : Type :=
| KEqual {A} `{GoType A} `{comparable A} (expected actual : A)
| KNotEqual {A} `{GoType A} `{comparable A} (expected actual : A)
| KTrue (actual : bool)
| KFalse (actual : bool)
| KNil (actual : any)
| KNotNil (actual : any)
| KStringContains (str substr : string)
| KStringDoesNotContain (str substr : string)
| KPanics (f : Exec T unit)
| KDoesNotPanic (f : Exec T unit)
| KErrorIs (err target : errors.error)
| KErrorIsNot (err target : errors.error)
| KMapContainsKey {K V} `{GoType K} `{comparable K} (m : gomap K V) (key : K)
| KMapDoesNotContainKey {K V} `{GoType K} `{comparable K} (m : gomap K V) (key : K)
| KEmptyMap {K V} `{GoType K} `{GoType V} (m : gomap K V)
| KNotEmptyMap {K V} `{GoType K} `{GoType V} (m : gomap K V)
| KEmptySlice {E} `{GoType E} (s : Go.slice E)
| KNotEmptySlice {E} `{GoType E} (s : Go.slice E)
| KDeepEqual {A} `{GoType A} `{reflect.Deep A} (expected actual : A)
| KNotDeepEqual {A} `{GoType A} `{reflect.Deep A} (expected actual : A).

Arguments KEqual {T A _ _} expected actual.
Arguments KNotEqual {T A _ _} expected actual.
Arguments KTrue {T} actual.
Arguments KFalse {T} actual.
Arguments KNil {T} actual.
Arguments KNotNil {T} actual.
Arguments KStringContains {T} str substr.
Arguments KStringDoesNotContain {T} str substr.
Arguments KPanics {T} f.
Arguments KDoesNotPanic {T} f.
Arguments KErrorIs {T} err target.
Arguments KErrorIsNot {T} err target.
Arguments KMapContainsKey {T K V _ _} m key.
Arguments KMapDoesNotContainKey {T K V _ _} m key.
Arguments KEmptyMap {T K V _ _} m.
Arguments KNotEmptyMap {T K V _ _} m.
Arguments KEmptySlice {T E _} s.
Arguments KNotEmptySlice {T E _} s.
Arguments KDeepEqual {T A _ _} expected actual.
Arguments KNotDeepEqual {T A _ _} expected actual.

(** How the evaluation of the predicate of a check comes out: it is decided
    and the check goes on; or the procedure given to [Panics] or
    [DoesNotPanic] stopped the goroutine, in which case the deferred function
    of the check still decides, on [recover() == nil]; or it panics. *)
Inductive outcome : Type :=
| Decided (holds : bool)
| Exited (holds : bool)
| Raised (payload : dyn).

(** The outcome of an operation that is [None] when it panics. *)
Definition decided (payload : dyn) (o : option bool) : outcome :=
  match o with
  | Some b => Decided b
  | None => Raised payload
  end.

Section Family.

Context {T : Type} `{testing.TB T}.

(** The formatted variant of a check ([Equalf], [Nilf], [Panicsf], ...); the
    value [Panicsf] returns is dropped. *)
Definition formatted (c : check T) (format : string) (args : list any) : Exec T unit :=
  match c with
  | KEqual expected actual => assert.Equalf expected actual format args
  | KNotEqual expected actual => assert.NotEqualf expected actual format args
  | KTrue actual => assert.Truef actual format args
  | KFalse actual => assert.Falsef actual format args
  | KNil actual => assert.Nilf actual format args
  | KNotNil actual => assert.NotNilf actual format args
  | KStringContains str substr => assert.StringContainsf str substr format args
  | KStringDoesNotContain str substr =>
      assert.StringDoesNotContainf str substr format args
  | KPanics f => assert.Panicsf f format args ;; ret tt
  | KDoesNotPanic f => assert.DoesNotPanicf f format args
  | KErrorIs err target => assert.ErrorIsf err target format args
  | KErrorIsNot err target => assert.ErrorIsNotf err target format args
  | KMapContainsKey m key => assert.MapContainsKeyf m key format args
  | KMapDoesNotContainKey m key => assert.MapDoesNotContainKeyf m key format args
  | KEmptyMap m => assert.EmptyMapf m format args
  | KNotEmptyMap m => assert.NotEmptyMapf m format args
  | KEmptySlice slice => assert.EmptySlicef slice format args
  | KNotEmptySlice slice => assert.NotEmptySlicef slice format args
  | KDeepEqual expected actual => assert.DeepEqualf expected actual format args
  | KNotDeepEqual expected actual => assert.NotDeepEqualf expected actual format args
  end.

(** The default-message variant ([Equal], [Nil], [Panics], ...). *)
Definition default (c : check T) : Exec T unit :=
  match c with
  | KEqual expected actual => assert.Equal expected actual
  | KNotEqual expected actual => assert.NotEqual expected actual
  | KTrue actual => assert.True actual
  | KFalse actual => assert.False actual
  | KNil actual => assert.Nil actual
  | KNotNil actual => assert.NotNil actual
  | KStringContains str substr => assert.StringContains str substr
  | KStringDoesNotContain str substr => assert.StringDoesNotContain str substr
  | KPanics f => assert.Panics f ;; ret tt
  | KDoesNotPanic f => assert.DoesNotPanic f
  | KErrorIs err target => assert.ErrorIs err target
  | KErrorIsNot err target => assert.ErrorIsNot err target
  | KMapContainsKey m key => assert.MapContainsKey m key
  | KMapDoesNotContainKey m key => assert.MapDoesNotContainKey m key
  | KEmptyMap m => assert.EmptyMap m
  | KNotEmptyMap m => assert.NotEmptyMap m
  | KEmptySlice slice => assert.EmptySlice slice
  | KNotEmptySlice slice => assert.NotEmptySlice slice
  | KDeepEqual expected actual => assert.DeepEqual expected actual
  | KNotDeepEqual expected actual => assert.NotDeepEqual expected actual
  end.

(** The built-in message of the default-message variant. *)
Definition message (c : check T) : string * list any :=
  match c with
  | KEqual expected actual =>
      ("expected %v to equal %v", [to_any actual; to_any expected])
  | KNotEqual expected actual =>
      ("expected %v to not equal %v", [to_any actual; to_any expected])
  | KTrue actual => ("expected %v to be true", [to_any actual])
  | KFalse actual => ("expected %v to be false", [to_any actual])
  | KNil actual => ("expected %v to be nil", [actual])
  | KNotNil actual => ("expected %v to not be nil", [actual])
  | KStringContains str substr =>
      ("expected %v to contain the substring %v", [to_any str; to_any substr])
  | KStringDoesNotContain str substr =>
      ("expected %v to not contain the substring %v", [to_any str; to_any substr])
  | KPanics _ => ("expected function to panic, did not panic", [])
  | KDoesNotPanic _ => ("expected function to not panic, did panic", [])
  | KErrorIs err target =>
      ("expected error %v to be %v", [to_any err; to_any target])
  | KErrorIsNot err target =>
      ("expected error %v to not be %v", [to_any err; to_any target])
  | KMapContainsKey _ key => ("expected map to contain key %v", [to_any key])
  | KMapDoesNotContainKey _ key =>
      ("expected map to not contain key %v", [to_any key])
  | KEmptyMap m => ("expected map %v to be empty", [to_any m])
  | KNotEmptyMap m => ("expected map %v to not be empty", [to_any m])
  | KEmptySlice slice => ("expected slice %v to be empty", [to_any slice])
  | KNotEmptySlice slice => ("expected slice %v to not be empty", [to_any slice])
  | KDeepEqual expected actual =>
      ("expected %v to reflect.DeepEqual %v", [to_any actual; to_any expected])
  | KNotDeepEqual expected actual =>
      ("expected %v to not reflect.DeepEqual %v", [to_any actual; to_any expected])
  end.

Definition panicked {A} (c : completion A) : bool :=
  match c with
  | Normal _ => false
  | Panicking _ => true
  | Exiting => false
  end.

(** The predicate for PASS of each check, by the table of the
    specification, evaluated in the state [t]: the state afterwards (only
    the procedure given to [Panics] and [DoesNotPanic] acts on it) and how
    the evaluation came out. *)
Definition evaluate (c : check T) (t : T) : T * outcome :=
  match c with
  | KEqual expected actual =>
      (t, decided (comparing_uncomparable expected) (go_eq expected actual))
  | KNotEqual expected actual =>
      (t, decided (comparing_uncomparable expected)
            (option_map negb (go_eq expected actual)))
  | KTrue actual => (t, Decided (Bool.eqb actual true))
  | KFalse actual => (t, Decided (Bool.eqb actual false))
  | KNil actual => (t, Decided (is_nil actual))
  | KNotNil actual => (t, Decided (negb (is_nil actual)))
  | KStringContains str substr => (t, Decided (strings.Contains str substr))
  | KStringDoesNotContain str substr =>
      (t, Decided (negb (strings.Contains str substr)))
  | KPanics f =>
      let (t', c) := f t in
      (t', match c with
           | Normal _ => Decided false
           | Panicking _ => Decided true
           | Exiting => Exited false
           end)
  | KDoesNotPanic f =>
      let (t', c) := f t in
      (t', match c with
           | Normal _ => Decided true
           | Panicking _ => Decided false
           | Exiting => Exited true
           end)
  | KErrorIs err target =>
      (t, match errors.Is err target with
          | inr b => Decided b
          | inl payload => Raised payload
          end)
  | KErrorIsNot err target =>
      (t, match errors.Is err target with
          | inr b => Decided (negb b)
          | inl payload => Raised payload
          end)
  | KMapContainsKey m key =>
      (t, decided (hash_of_unhashable key)
            (option_map assert.found (map_index m key)))
  | KMapDoesNotContainKey m key =>
      (t, decided (hash_of_unhashable key)
            (option_map (fun r => negb (assert.found r)) (map_index m key)))
  | KEmptyMap m => (t, Decided (Nat.eqb (map_len m) 0))
  | KNotEmptyMap m => (t, Decided (negb (Nat.eqb (map_len m) 0)))
  | KEmptySlice slice => (t, Decided (Nat.eqb (slice_len slice) 0))
  | KNotEmptySlice slice => (t, Decided (negb (Nat.eqb (slice_len slice) 0)))
  | KDeepEqual expected actual => (t, Decided (reflect.DeepEqual expected actual))
  | KNotDeepEqual expected actual =>
      (t, Decided (negb (reflect.DeepEqual expected actual)))
  end.

(** Whether the operands of a check can be compared without a run-time
    panic: always, but for [==] and map keys on operands that hold an
    interface value of a dynamic type without [==], and for [errors.Is] when
    a [==] or an [Is] method it evaluates panics. *)
Definition evaluable (c : check T) : bool :=
  match c with
  | KEqual expected actual | KNotEqual expected actual =>
      match go_eq expected actual with Some _ => true | None => false end
  | KMapContainsKey _ key | KMapDoesNotContainKey _ key =>
      match go_eq key key with Some _ => true | None => false end
  | KErrorIs err target | KErrorIsNot err target =>
      match errors.Is err target with inr _ => true | inl _ => false end
  | _ => true
  end.

(** The procedure a check is given to call: [f] for [Panics] and
    [DoesNotPanic], nothing for the others. *)
Definition procedure (c : check T) : Exec T unit :=
  match c with
  | KPanics f | KDoesNotPanic f => f
  | _ => ret tt
  end.

(** How often the formatted variant marks itself as a helper before it
    evaluates: [Truef] and [Falsef] go through [Equalf]. *)
Definition helper_calls (c : check T) : nat :=
  match c with
  | KTrue _ | KFalse _ => 2
  | _ => 1
  end.

(** What a check does, given how the evaluation came out: nothing when the
    predicate holds and one [Errorf] when it does not, after which it
    returns, or the goroutine goes on stopping; or the panic of the
    evaluation, and no report. *)
Definition verdict (format : string) (args : list any) (r : T * outcome)
  : T * completion unit :=
  match r with
  | (t, Decided true) => (t, Normal tt)
  | (t, Decided false) => (testing.Errorf format args t, Normal tt)
  | (t, Exited true) => (t, Exiting)
  | (t, Exited false) => (testing.Errorf format args t, Exiting)
  | (t, Raised payload) => (t, Panicking payload)
  end.

End Family.

(** The number of failure reports an outcome stands for: one when the
    predicate does not hold, none otherwise. *)
Definition due (o : outcome) : nat :=
  match o with
  | Decided false | Exited false => 1
  | _ => 0
  end.

(** How the check completes on an outcome. *)
Definition completes (o : outcome) : completion unit :=
  match o with
  | Decided _ => Normal tt
  | Exited _ => Exiting
  | Raised payload => Panicking payload
  end.

End checks.

(* ===================================================================== *)
(** ** The notions of the specification *)
(* ===================================================================== *)

Module spec.

Import Go.

(** "The absence-of-value sentinel for its type": the nil of a pointer,
    slice, map or function type, also under a named type. *)
Fixpoint nil_of_its_type (d : dyn) : bool :=
  match d with
  | DPtr _ None | DSlice _ None | DMap _ _ None | DFunc None => true
  | DNamed _ under => nil_of_its_type under
  | _ => false
  end.

(** The same for an argument as it arrives in an [any] parameter: the nil
    interface value, or a nil of the dynamic type. *)
Definition absent (v : any) : bool :=
  match v with
  | None => true
  | Some d => nil_of_its_type d
  end.

(** "It exposes an unwrap-to-cause relation": one step from an error to a
    cause it unwraps to. *)
Inductive unwraps_to : errors.value -> errors.value -> Prop :=
| unwrap_one h c : unwraps_to (errors.Wrap h (Some c)) c
| unwrap_many h cs c : In (Some c) cs -> unwraps_to (errors.Join h cs) c.

(** "An error matches if it is the target, or it exposes an unwrap-to-cause
    relation reaching the target, or it exposes an is-equivalent-to predicate
    that returns true for the target".  Being the target is being the same
    value. *)
Inductive Matches (target : errors.value) : errors.value -> Prop :=
| match_same e :
    errors.ident (errors.head e) = errors.ident (errors.head target) ->
    Matches target e
| match_is e p :
    errors.is_method (errors.head e) = Some p ->
    p (errors.ident (errors.head target)) = inr true ->
    Matches target e
| match_cause e c :
    unwraps_to e c -> Matches target c -> Matches target e.

(** Matching on the interface values: nil is matched by nil only. *)
Definition matches (err target : errors.error) : Prop :=
  match err, target with
  | None, None => True
  | Some e, Some tg => Matches tg e
  | _, _ => False
  end.

(** The same with "is the target" read as [errors.Is] reads it: the error
    [==] the target, which is only asked of a target of a comparable type. *)
Inductive IsMatch (target : errors.value) : errors.value -> Prop :=
| is_equal e :
    errors.comparable_type (errors.head target) = true ->
    errors.equals (errors.head e) (errors.ident (errors.head target)) = inr true ->
    IsMatch target e
| is_accepted e p :
    errors.is_method (errors.head e) = Some p ->
    p (errors.ident (errors.head target)) = inr true ->
    IsMatch target e
| is_cause e c :
    unwraps_to e c -> IsMatch target c -> IsMatch target e.

Definition is_match (err target : errors.error) : Prop :=
  match err, target with
  | None, None => True
  | Some e, Some tg => IsMatch tg e
  | _, _ => False
  end.

(** An error value of a type without [==], such as a slice type with an
    [Error] method: [==] on two values of the type panics. *)
Definition uncomparable_error (fresh : nat) (ty : typ) : errors.value :=
  errors.Leaf
    {| errors.ident := fresh;
       errors.comparable_type := false;
       errors.equals := fun other =>
         if Nat.eqb fresh other
         then inl (run_time_error "comparing uncomparable type " (Some ty))
         else inr false;
       errors.is_method := None |}.

(** What the wrapped context receives for an operation of a spy whose flag
    is [flag]: its helper marks, the message of a message-carrying failure
    on the log channel, and from the verification helpers one [Errorf] when
    the expectation is not met. *)
Definition forwarded (flag : bool) (o : spy.Op) : list testing.Call :=
  match o with
  | spy.OFail | spy.OFailNow => [testing.CHelper]
  | spy.OError args | spy.OFatal args => [testing.CHelper; testing.CLog args]
  | spy.OErrorf format args | spy.OFatalf format args =>
      [testing.CHelper; testing.CLogf format args]
  | spy.OSpiedOnAFailure | spy.OFailed => []
  | spy.OExpectFailure =>
      [testing.CHelper; testing.CHelper; testing.CHelper] ++
      (if flag then []
       else [testing.CErrorf "[spy] Expected test failure but got success" []])
  | spy.OExpectSuccess =>
      [testing.CHelper; testing.CHelper; testing.CHelper] ++
      (if flag
       then [testing.CErrorf "[spy] Expected test success but got failure" []]
       else [])
  | spy.OHelper => [testing.CHelper]
  | spy.OLog args => [testing.CLog args]
  | spy.OLogf format args => [testing.CLogf format args]
  end.

End spec.

(** Induction on an error value and the causes it unwraps to. *)
Section value_induction.

Variable P : errors.value -> Prop.
Hypothesis P_Leaf : forall h, P (errors.Leaf h).
Hypothesis P_Wrap_nil : forall h, P (errors.Wrap h None).
Hypothesis P_Wrap : forall h c, P c -> P (errors.Wrap h (Some c)).
Hypothesis P_Join :
  forall h cs, errors.all_causes P cs -> P (errors.Join h cs).

Fixpoint value_induction (e : errors.value) : P e :=
  match e with
  | errors.Leaf h => P_Leaf h
  | errors.Wrap h None => P_Wrap_nil h
  | errors.Wrap h (Some c) => P_Wrap h c (value_induction c)
  | errors.Join h cs =>
      P_Join h cs
        ((fix all (l : list (option errors.value)) : errors.all_causes P l :=
            match l return errors.all_causes P l with
            | [] => I
            | None :: l' => all l'
            | Some d :: l' => conj (value_induction d) (all l')
            end) cs)
  end.

End value_induction.

(* ===================================================================== *)
(** ** Notions for the further properties *)
(* ===================================================================== *)

Module notions.

Import Go checks.
Local Open Scope go_scope.

(** The check of the opposite name on the same inputs: [NotEqual] for
    [Equal], [False] for [True], [DoesNotPanic] for [Panics], and back. *)
Definition opposite {T} (c : check T) : check T :=
  match c with
  | KEqual expected actual => KNotEqual expected actual
  | KNotEqual expected actual => KEqual expected actual
  | KTrue actual => KFalse actual
  | KFalse actual => KTrue actual
  | KNil actual => KNotNil actual
  | KNotNil actual => KNil actual
  | KStringContains str substr => KStringDoesNotContain str substr
  | KStringDoesNotContain str substr => KStringContains str substr
  | KPanics f => KDoesNotPanic f
  | KDoesNotPanic f => KPanics f
  | KErrorIs err target => KErrorIsNot err target
  | KErrorIsNot err target => KErrorIs err target
  | KMapContainsKey m key => KMapDoesNotContainKey m key
  | KMapDoesNotContainKey m key => KMapContainsKey m key
  | KEmptyMap m => KNotEmptyMap m
  | KNotEmptyMap m => KEmptyMap m
  | KEmptySlice s => KNotEmptySlice s
  | KNotEmptySlice s => KEmptySlice s
  | KDeepEqual expected actual => KNotDeepEqual expected actual
  | KNotDeepEqual expected actual => KDeepEqual expected actual
  end.

(** The outcome of the opposite predicate. *)
Definition negated (o : outcome) : outcome :=
  match o with
  | Decided b => Decided (negb b)
  | Exited b => Exited (negb b)
  | Raised payload => Raised payload
  end.

(** The same call made [n] times in a row. *)
Fixpoint repeatedly {T} (n : nat) (m : Exec T unit) : Exec T unit :=
  match n with
  | 0 => ret tt
  | S n' => m ;; repeatedly n' m
  end.

(** [substr] occurs within [s]. *)
Definition occurs (substr s : string) : Prop :=
  exists before after : string,
    s = String.append before (String.append substr after).

(** The entries of a map; the nil map has none. *)
Definition entries {K V} (m : gomap K V) : list (K * V) :=
  match m with
  | None => []
  | Some l => l
  end.

(** A type whose [==] never panics and holds exactly between identical
    values: [bool], [int], [string] and the pointer types, not [float64]
    (NaN) and not the interface types. *)
Definition strict (A : Type) `{comparable A} : Prop :=
  forall a b : A,
    (go_eq a b = Some true /\ a = b) \/ (go_eq a b = Some false /\ a <> b).

(** A struct type with one field of interface type, [struct{ v any }]: the
    type is comparable, and [==] on two of its values compares the fields,
    so that it panics when they hold one dynamic type without [==]. *)
Record holder : Type := Hold { held : any }.

#[global] Instance comparable_holder : comparable holder :=
  {| go_eq := fun a b => iface_eq (held a) (held b);
     uncomparable_type := fun a => dyn_uncomparable (held a) |}.

(** The operations of a spy that verify an expectation. *)
Definition verifies (o : spy.Op) : bool :=
  match o with
  | spy.OExpectFailure | spy.OExpectSuccess => true
  | _ => false
  end.

End notions.

(* ===================================================================== *)
(** ** Properties *)
(* ===================================================================== *)

Section RecorderFacts.

Import testing.

Lemma failure_reports_app (t u : Recorder) :
  failure_reports (t ++ u) = failure_reports t + failure_reports u.
Proof.
  unfold failure_reports. rewrite filter_app, length_app. reflexivity.
Qed.

Lemma fatal_reports_app (t u : Recorder) :
  fatal_reports (t ++ u) = fatal_reports t + fatal_reports u.
Proof.
  unfold fatal_reports. rewrite filter_app, length_app. reflexivity.
Qed.

Lemma failure_reports_single (c : Call) :
  failure_reports [c] = if is_failure_report c then 1 else 0.
Proof.
  unfold failure_reports. simpl. destruct (is_failure_report c); reflexivity.
Qed.

Lemma fatal_reports_single (c : Call) :
  fatal_reports [c] = if is_fatal c then 1 else 0.
Proof.
  unfold fatal_reports. simpl. destruct (is_fatal c); reflexivity.
Qed.

Lemma failure_reports_passthrough (u : Recorder) :
  Forall (fun c => is_passthrough c = true) u -> failure_reports u = 0.
Proof.
  induction 1 as [|c u Hc _ IH]; [reflexivity|].
  unfold failure_reports in *. simpl.
  destruct c; simpl in *; try discriminate; exact IH.
Qed.

Lemma failure_reports_helpers (k : nat) :
  failure_reports (repeat CHelper k) = 0.
Proof.
  induction k as [|k IH]; [reflexivity | exact IH].
Qed.

Lemma fatal_reports_helpers (k : nat) :
  fatal_reports (repeat CHelper k) = 0.
Proof.
  induction k as [|k IH]; [reflexivity | exact IH].
Qed.

Lemma Failed_app (t u : Recorder) :
  Failed (t ++ u) = Failed t || Failed u.
Proof. simpl. apply existsb_app. Qed.

Lemma Failed_passthrough (u : Recorder) :
  Forall (fun c => is_passthrough c = true) u -> Failed u = false.
Proof.
  induction 1 as [|c u Hc _ IH]; [reflexivity|].
  simpl in *. rewrite IH. destruct c; simpl in *; try discriminate; reflexivity.
Qed.

(** On the recorder, replaying calls appends them. *)
Lemma replay_Recorder (calls : list Call) (t : Recorder) :
  replay calls t = t ++ calls.
Proof.
  revert t. induction calls as [|c calls IH]; intros t; simpl.
  - now rewrite app_nil_r.
  - change (replay (c :: calls) t) with (replay calls (perform c t)).
    rewrite IH.
    replace (perform c t) with (t ++ [c]) by (destruct c; reflexivity).
    now rewrite <- app_assoc.
Qed.

Lemma replay_app {T} `{TB T} (a b : list Call) (t : T) :
  replay (a ++ b) t = replay b (replay a t).
Proof. unfold replay. apply fold_left_app. Qed.

End RecorderFacts.

(** *** What each check does, on any reporting context *)

Section Runs.

Import Go testing checks.

Context {T : Type} `{TB T}.

(** The formatted variant marks itself as a helper, evaluates the predicate
    of its check, and acts on the result. *)
Lemma formatted_run (c : check T) (format : string) (args : list any) (t : T) :
  formatted c format args t =
  verdict format args (evaluate c (Nat.iter (helper_calls c) Helper t)).
Proof.
  destruct c; cbn [formatted helper_calls Nat.iter nat_rect evaluate];
    unfold assert.Equalf, assert.NotEqualf, assert.Truef, assert.Falsef,
      assert.Nilf, assert.NotNilf, assert.StringContainsf,
      assert.StringDoesNotContainf, assert.Panicsf, assert.DoesNotPanicf,
      assert.ErrorIsf, assert.ErrorIsNotf, assert.MapContainsKeyf,
      assert.MapDoesNotContainKeyf, assert.EmptyMapf, assert.NotEmptyMapf,
      assert.EmptySlicef, assert.NotEmptySlicef, assert.DeepEqualf,
      assert.NotDeepEqualf, assert.Equalf, go_neq, defer_recover,
      bind, call, eval, returned, ret, verdict, decided.
  - destruct (go_eq expected actual) as [[|]|]; reflexivity.
  - destruct (go_eq expected actual) as [[|]|]; reflexivity.
  - destruct actual; reflexivity.
  - destruct actual; reflexivity.
  - destruct actual; reflexivity.
  - destruct actual; reflexivity.
  - destruct (strings.Contains str substr); reflexivity.
  - destruct (strings.Contains str substr); reflexivity.
  - destruct (f (Helper t)) as [t1 [[]|v|]]; reflexivity.
  - destruct (f (Helper t)) as [t1 [[]|v|]]; reflexivity.
  - destruct (errors.Is err target) as [v|[|]]; reflexivity.
  - destruct (errors.Is err target) as [v|[|]]; reflexivity.
  - destruct (map_index m key) as [[v|]|]; reflexivity.
  - destruct (map_index m key) as [[v|]|]; reflexivity.
  - destruct (Nat.eqb (map_len m) 0); reflexivity.
  - destruct (Nat.eqb (map_len m) 0); reflexivity.
  - destruct (Nat.eqb (slice_len s) 0); reflexivity.
  - destruct (Nat.eqb (slice_len s) 0); reflexivity.
  - destruct (reflect.DeepEqual expected actual); reflexivity.
  - destruct (reflect.DeepEqual expected actual); reflexivity.
Qed.

(** The default-message variant marks itself as a helper and calls the
    formatted variant with its built-in message. *)
Lemma default_run (c : check T) (t : T) :
  default c t = formatted c (fst (message c)) (snd (message c)) (Helper t).
Proof. destruct c; reflexivity. Qed.

(** Evaluating the predicate panics exactly when the operands cannot be
    compared. *)
Lemma evaluate_evaluable (c : check T) (t : T) :
  evaluable c =
  match snd (evaluate c t) with Raised _ => false | _ => true end.
Proof.
  destruct c as [A ? ? x y|A ? ? x y| | | | | | |f|f|e g|e g
                |K V ? ? m k|K V ? ? m k| | | | | |];
    cbn [evaluable evaluate snd]; unfold decided; try reflexivity.
  - destruct (go_eq x y); reflexivity.
  - destruct (go_eq x y); reflexivity.
  - destruct (f t) as [t1 [[]|v|]]; reflexivity.
  - destruct (f t) as [t1 [[]|v|]]; reflexivity.
  - destruct (errors.Is e g); reflexivity.
  - destruct (errors.Is e g); reflexivity.
  - unfold map_index. destruct (go_eq k k); reflexivity.
  - unfold map_index. destruct (go_eq k k); reflexivity.
Qed.

(** [Panicsf] on any context: the report is made after [f] has run, and the
    result is the recovered payload; when [f] stops the goroutine the report
    is made and the goroutine goes on stopping. *)
Lemma Panicsf_run (f : Exec T unit) (format : string) (args : list any) (t : T) :
  assert.Panicsf f format args t =
  match f (Helper t) with
  | (t1, Normal _) => (Errorf format args t1, Normal None)
  | (t1, Panicking v) => (t1, Normal (Some v))
  | (t1, Exiting) => (Errorf format args t1, Exiting)
  end.
Proof.
  unfold assert.Panicsf, defer_recover, bind, call, ret.
  destruct (f (Helper t)) as [t1 [[]|v|]]; reflexivity.
Qed.

(** [DoesNotPanicf] on any context. *)
Lemma DoesNotPanicf_run (f : Exec T unit) (format : string) (args : list any)
    (t : T) :
  assert.DoesNotPanicf f format args t =
  match f (Helper t) with
  | (t1, Normal _) => (t1, Normal tt)
  | (t1, Panicking v) => (Errorf format args t1, Normal tt)
  | (t1, Exiting) => (t1, Exiting)
  end.
Proof.
  unfold assert.DoesNotPanicf, defer_recover, bind, call, ret.
  destruct (f (Helper t)) as [t1 [[]|v|]]; reflexivity.
Qed.

End Runs.

(** *** The checks on the recorded context *)

Section OnRecorder.

Import Go testing checks.

Lemma iter_Helper (k : nat) (t : Recorder) :
  Nat.iter k Helper t = t ++ repeat CHelper k.
Proof.
  induction k as [|k IH].
  - simpl. now rewrite app_nil_r.
  - change (Nat.iter (S k) Helper t) with (Helper (Nat.iter k Helper t)).
    rewrite IH. simpl Helper. unfold record. rewrite <- app_assoc. f_equal.
    symmetry. apply (repeat_cons k CHelper).
Qed.

Lemma verdict_reports (format : string) (args : list any) (pre : Recorder)
    (v : outcome) :
  failure_reports (fst (verdict format args (pre, v))) =
    failure_reports pre + due v /\
  fatal_reports (fst (verdict format args (pre, v))) = fatal_reports pre.
Proof.
  destruct v as [[|]|[|]|v]; simpl; rewrite ?Nat.add_0_r; auto;
    unfold record; rewrite failure_reports_app, fatal_reports_app; simpl;
    rewrite Nat.add_0_r; auto.
Qed.

Lemma verdict_completion {T} `{TB T} (format : string) (args : list any)
    (pre : T) (v : outcome) :
  snd (verdict format args (pre, v)) = completes v.
Proof. destruct v as [[|]|[|]|v]; reflexivity. Qed.

Lemma formatted_Recorder (c : check Recorder) (format : string)
    (args : list any) (t : Recorder) :
  formatted c format args t =
  verdict format args (evaluate c (t ++ repeat CHelper (helper_calls c))).
Proof. rewrite formatted_run, iter_Helper. reflexivity. Qed.

Lemma default_Recorder (c : check Recorder) (t : Recorder) :
  default c t =
  verdict (fst (message c)) (snd (message c))
    (evaluate c (t ++ repeat CHelper (S (helper_calls c)))).
Proof.
  rewrite default_run, formatted_Recorder. simpl Helper. unfold record.
  rewrite <- app_assoc. reflexivity.
Qed.

End OnRecorder.

(** *** Panics *)

Section PanicsClaims.

Import Go testing checks.

(** C1, at a procedure that stops its goroutine.  [Panics(t, f)] with [f]
    calling [t.FailNow()] on the context of the framework: the deferred
    function finds [recover()] nil, reports that the function did not panic,
    and the goroutine stops: [Panics] does not return to its caller. *)
Lemma C1_counterexample_goexit :
  assert.Panics (fatally FailNow) ([] : Recorder) =
  ([CHelper; CHelper; CFailNow;
    CErrorf "expected function to panic, did not panic" []], Exiting).
Proof. reflexivity. Qed.

(** C1, amended.  For every procedure [f], [Panicsf] and [Panics] report no
    failure if and only if the call of [f] panics; when it panics they
    return the recovered payload, and when it returns they return nil; the
    panic of [f] never leaves the check, which completes normally whenever
    [f] returns or panics.  When [f] stops its goroutine the check reports a
    failure and does not return.  The reports are counted from the state [f]
    leaves, since [f] may report on its own. *)
Theorem C1_Panics_passes_iff_f_panics
    (f : Exec Recorder unit) (format : string) (args : list any) (t : Recorder) :
  let after := f (t ++ [CHelper]) in
  let r := assert.Panicsf f format args t in
  let after' := f (t ++ [CHelper; CHelper]) in
  let r' := assert.Panics f t in
  (snd r = match snd after with
           | Normal _ => Normal None
           | Panicking v => Normal (Some v)
           | Exiting => Exiting
           end
   /\ (failure_reports (fst r) = failure_reports (fst after)
       <-> panicked (snd after) = true)
   /\ fst r = (if panicked (snd after) then fst after
               else fst after ++ [CErrorf format args]))
  /\
  (snd r' = match snd after' with
            | Normal _ => Normal None
            | Panicking v => Normal (Some v)
            | Exiting => Exiting
            end
   /\ (failure_reports (fst r') = failure_reports (fst after')
       <-> panicked (snd after') = true)
   /\ fst r' = (if panicked (snd after') then fst after'
                else fst after' ++
                     [CErrorf "expected function to panic, did not panic" []])).
Proof.
  assert (core : forall fmt a u,
    let after := f (u ++ [CHelper]) in
    let r := assert.Panicsf f fmt a u in
    snd r = match snd after with
            | Normal _ => Normal None
            | Panicking v => Normal (Some v)
            | Exiting => Exiting
            end
    /\ (failure_reports (fst r) = failure_reports (fst after)
        <-> panicked (snd after) = true)
    /\ fst r = (if panicked (snd after) then fst after
                else fst after ++ [CErrorf fmt a])).
  { intros fmt a u. cbv zeta. rewrite Panicsf_run. simpl Helper. unfold record.
    destruct (f (u ++ [CHelper])) as [t1 [[]|v|]]; simpl.
    - split; [reflexivity|]. split; [|reflexivity]. split; [|discriminate].
      unfold record. rewrite failure_reports_app.
      change (failure_reports [CErrorf fmt a]) with 1. lia.
    - repeat split; auto.
    - split; [reflexivity|]. split; [|reflexivity]. split; [|discriminate].
      unfold record. rewrite failure_reports_app.
      change (failure_reports [CErrorf fmt a]) with 1. lia. }
  split.
  - apply core.
  - cbv zeta.
    change (assert.Panics f t)
      with (assert.Panicsf f "expected function to panic, did not panic" []
              (t ++ [CHelper])).
    replace (t ++ [CHelper; CHelper]) with ((t ++ [CHelper]) ++ [CHelper])
      by now rewrite <- app_assoc.
    apply core.
Qed.

End PanicsClaims.

(** *** Counting the reports of a check *)

Section Reports.

Import Go testing checks.

Lemma formatted_reports (c : check Recorder) (format : string)
    (args : list any) (t : Recorder) :
  let e := evaluate c (t ++ repeat CHelper (helper_calls c)) in
  failure_reports (fst (formatted c format args t)) =
    failure_reports (fst e) + due (snd e) /\
  fatal_reports (fst (formatted c format args t)) = fatal_reports (fst e).
Proof.
  cbv zeta. rewrite formatted_Recorder.
  destruct (evaluate c (t ++ repeat CHelper (helper_calls c))) as [pre v].
  apply verdict_reports.
Qed.

Lemma default_reports (c : check Recorder) (t : Recorder) :
  let e := evaluate c (t ++ repeat CHelper (S (helper_calls c))) in
  failure_reports (fst (default c t)) =
    failure_reports (fst e) + due (snd e) /\
  fatal_reports (fst (default c t)) = fatal_reports (fst e).
Proof.
  cbv zeta. rewrite default_Recorder.
  destruct (evaluate c (t ++ repeat CHelper (S (helper_calls c)))) as [pre v].
  apply verdict_reports.
Qed.

Lemma helpers_reports (t : Recorder) (k : nat) :
  failure_reports (t ++ repeat CHelper k) = failure_reports t.
Proof. rewrite failure_reports_app, failure_reports_helpers. lia. Qed.

Lemma helpers_fatal (t : Recorder) (k : nat) :
  fatal_reports (t ++ repeat CHelper k) = fatal_reports t.
Proof. rewrite fatal_reports_app, fatal_reports_helpers. lia. Qed.

End Reports.

(** Rewrites a count of reports of one check into the count before it and
    what the predicate makes due. *)
Ltac count_reports :=
  repeat match goal with
    | |- context [testing.failure_reports (fst (checks.default ?c ?t))] =>
        rewrite (proj1 (default_reports c t))
    | |- context [testing.failure_reports (fst (checks.formatted ?c ?f ?a ?t))] =>
        rewrite (proj1 (formatted_reports c f a t))
    end;
  cbn [checks.evaluate checks.helper_calls fst snd];
  rewrite ?helpers_reports.

(** *** Nil and NotNil *)

Section NilClaims.

Import Go testing checks.

(** [Nil] and [NotNil] decide on the interface value they are given: [Nil]
    passes on the nil interface value and on nothing else. *)
Lemma Nil_NotNil_reports (v : any) (t : Recorder) :
  failure_reports (fst (assert.Nil v t)) =
    failure_reports t + (if is_nil v then 0 else 1) /\
  failure_reports (fst (assert.NotNil v t)) =
    failure_reports t + (if is_nil v then 1 else 0).
Proof.
  change (assert.Nil v t) with (default (KNil v) t).
  change (assert.NotNil v t) with (default (KNotNil v) t).
  count_reports. destruct (is_nil v); simpl; auto.
Qed.

(** The nil interface value is a sentinel, and what is not a sentinel is not
    nil: [Nil] and the specification differ only on the nil of a pointer,
    slice, map or function type held in an interface value. *)
Lemma is_nil_absent (v : any) : is_nil v = true -> spec.absent v = true.
Proof. destruct v; [discriminate | reflexivity]. Qed.

(** C2, evaluated on a nil pointer.  [Nil(t, p)] for [var p *int] (nil)
    receives a non-nil interface value that holds the nil pointer: it
    reports a failure although [p] is the sentinel of its type, and
    [NotNil(t, p)] reports none.  On a nil interface argument [Nil] passes
    and [NotNil] reports. *)
Theorem C2_Nil_reports_on_nil_pointer (t : Recorder) :
  let p : pointer Z := Ptr None in
  let v : any := None in
  spec.absent (to_any p) = true
  /\ failure_reports (fst (assert.Nil (to_any p) t)) = failure_reports t + 1
  /\ failure_reports (fst (assert.NotNil (to_any p) t)) = failure_reports t
  /\ spec.absent (to_any v) = true
  /\ failure_reports (fst (assert.Nil (to_any v) t)) = failure_reports t
  /\ failure_reports (fst (assert.NotNil (to_any v) t)) = failure_reports t + 1.
Proof.
  cbv zeta.
  destruct (Nil_NotNil_reports (to_any (Ptr None : pointer Z)) t) as [H1 H2].
  destruct (Nil_NotNil_reports (to_any (None : any)) t) as [H3 H4].
  simpl in H1, H2, H3, H4. rewrite Nat.add_0_r in *.
  repeat split; assumption.
Qed.

End NilClaims.

(** *** Equal and NotEqual *)

Section EqualClaims.

Import Go testing checks.

(** [==] is reflexive on booleans, integers, strings and pointers. *)
Lemma go_eq_refl_bool (x : bool) : go_eq x x = Some true.
Proof. simpl. now rewrite Bool.eqb_reflx. Qed.

Lemma go_eq_refl_int (x : Z) : go_eq x x = Some true.
Proof. simpl. now rewrite Z.eqb_refl. Qed.

Lemma go_eq_refl_string (x : string) : go_eq x x = Some true.
Proof. simpl. now rewrite String.eqb_refl. Qed.

Lemma go_eq_refl_pointer {E} (x : pointer E) : go_eq x x = Some true.
Proof.
  destruct x as [[a|]]; simpl; [|reflexivity]. now rewrite Nat.eqb_refl.
Qed.

(** On [float64] it is reflexive on every value but NaN. *)
Lemma go_eq_refl_float64 (x : float64) :
  go_eq x x = Some true <-> x <> S754_nan.
Proof.
  simpl. unfold SFeqb. destruct x as [s|s| |s m e]; simpl.
  - split; [discriminate | reflexivity].
  - destruct s; (split; [discriminate | reflexivity]).
  - split; [discriminate | intros ne; now elim ne].
  - rewrite Z.compare_refl, Pos.compare_refl.
    destruct s; (split; [discriminate | reflexivity]).
Qed.

(** C9, at a NaN: [Equal(t, x, x)] reports a failure and [NotEqual(t, x, x)]
    reports none for the [float64] value NaN, which is not equal to itself. *)
Lemma C9_counterexample_NaN :
  failure_reports (fst (assert.Equal (S754_nan : float64) S754_nan [])) = 1
  /\ failure_reports (fst (assert.NotEqual (S754_nan : float64) S754_nan [])) = 0.
Proof. split; reflexivity. Qed.

(** C9, amended.  For every comparable value [x] with [x == x] (every value
    but a NaN), [Equal(t, x, x)] reports no failure and [NotEqual(t, x, x)]
    reports exactly one; for every [x], [y] with [x != y], [Equal(t, x, y)]
    reports exactly one failure and [NotEqual(t, x, y)] none. *)
Theorem C9_Equal_NotEqual {A} `{GoType A} `{comparable A}
    (x y : A) (t : Recorder) :
  (go_eq x x = Some true ->
     failure_reports (fst (assert.Equal x x t)) = failure_reports t
     /\ failure_reports (fst (assert.NotEqual x x t)) = failure_reports t + 1)
  /\
  (go_eq x y = Some false ->
     failure_reports (fst (assert.Equal x y t)) = failure_reports t + 1
     /\ failure_reports (fst (assert.NotEqual x y t)) = failure_reports t).
Proof.
  split; intros E.
  - change (assert.Equal x x t) with (default (KEqual x x) t).
    change (assert.NotEqual x x t) with (default (KNotEqual x x) t).
    count_reports. rewrite E. simpl. lia.
  - change (assert.Equal x y t) with (default (KEqual x y) t).
    change (assert.NotEqual x y t) with (default (KNotEqual x y) t).
    count_reports. rewrite E. simpl. lia.
Qed.

Lemma C9_Equal_NotEqual_witness :
  (go_eq 42%Z 42%Z = Some true /\ go_eq 1%Z 2%Z = Some false)
  /\ (failure_reports (fst (assert.Equal 42%Z 42%Z [])) = 0
      /\ failure_reports (fst (assert.NotEqual 42%Z 42%Z [])) = 1)
  /\ (failure_reports (fst (assert.Equal 1%Z 1%Z [])) = 0
      /\ failure_reports (fst (assert.NotEqual 1%Z 1%Z [])) = 1)
  /\ (failure_reports (fst (assert.Equal 1%Z 2%Z [])) = 1
      /\ failure_reports (fst (assert.NotEqual 1%Z 2%Z [])) = 0).
Proof.
  split; [split; reflexivity|].
  split; [apply (proj1 (C9_Equal_NotEqual 42%Z 42%Z [])); reflexivity|].
  split; [apply (proj1 (C9_Equal_NotEqual 1%Z 2%Z [])); reflexivity|].
  apply (proj2 (C9_Equal_NotEqual 1%Z 2%Z [])); reflexivity.
Defined.

End EqualClaims.

(** *** Empty and non-empty collections *)

Section EmptyClaims.

Import Go testing checks.

(** C10.  On the nil map [EmptyMap] passes and [NotEmptyMap] reports a
    failure, on the nil slice [EmptySlice] passes and [NotEmptySlice]
    reports a failure; the four formatted checks act on the nil collection
    as on the constructed empty one, and on every collection by its length
    only. *)
Theorem C10_nil_collections_are_empty {K V E}
    `{GoType K} `{GoType V} `{GoType E}
    (m : gomap K V) (s : slice E)
    (format : string) (args : list any) (t : Recorder) :
  (failure_reports (fst (assert.EmptyMap (None : gomap K V) t)) = failure_reports t
   /\ failure_reports (fst (assert.NotEmptyMap (None : gomap K V) t)) =
        failure_reports t + 1
   /\ failure_reports (fst (assert.EmptySlice (None : slice E) t)) = failure_reports t
   /\ failure_reports (fst (assert.NotEmptySlice (None : slice E) t)) =
        failure_reports t + 1)
  /\
  (assert.EmptyMapf (None : gomap K V) format args t =
     assert.EmptyMapf (Some [] : gomap K V) format args t
   /\ assert.NotEmptyMapf (None : gomap K V) format args t =
        assert.NotEmptyMapf (Some [] : gomap K V) format args t
   /\ assert.EmptySlicef (None : slice E) format args t =
        assert.EmptySlicef (Some [] : slice E) format args t
   /\ assert.NotEmptySlicef (None : slice E) format args t =
        assert.NotEmptySlicef (Some [] : slice E) format args t)
  /\
  (assert.EmptyMapf m format args t =
     (if Nat.eqb (map_len m) 0 then t ++ [CHelper]
      else t ++ [CHelper; CErrorf format args], Normal tt)
   /\ assert.NotEmptyMapf m format args t =
     (if Nat.eqb (map_len m) 0 then t ++ [CHelper; CErrorf format args]
      else t ++ [CHelper], Normal tt)
   /\ assert.EmptySlicef s format args t =
     (if Nat.eqb (slice_len s) 0 then t ++ [CHelper]
      else t ++ [CHelper; CErrorf format args], Normal tt)
   /\ assert.NotEmptySlicef s format args t =
     (if Nat.eqb (slice_len s) 0 then t ++ [CHelper; CErrorf format args]
      else t ++ [CHelper], Normal tt)).
Proof.
  split; [|split].
  - change (assert.EmptyMap (None : gomap K V) t)
      with (default (KEmptyMap (None : gomap K V)) t).
    change (assert.NotEmptyMap (None : gomap K V) t)
      with (default (KNotEmptyMap (None : gomap K V)) t).
    change (assert.EmptySlice (None : slice E) t)
      with (default (KEmptySlice (None : slice E)) t).
    change (assert.NotEmptySlice (None : slice E) t)
      with (default (KNotEmptySlice (None : slice E)) t).
    count_reports. simpl. repeat split; lia.
  - repeat split; reflexivity.
  - unfold assert.EmptyMapf, assert.NotEmptyMapf, assert.EmptySlicef,
      assert.NotEmptySlicef, bind, call, ret. simpl Helper. unfold record.
    destruct (Nat.eqb (map_len m) 0), (Nat.eqb (slice_len s) 0); simpl;
      unfold record; rewrite <- ?app_assoc; repeat split; reflexivity.
Qed.

End EmptyClaims.

(** *** Every check: reports, completion, delegation *)

Section EveryCheck.

Import Go testing checks.

(** Only the procedure given to the check acts on the context while the
    predicate is evaluated. *)
Lemma evaluate_state {T} `{TB T} (c : check T) (t : T) :
  fst (evaluate c t) = fst (procedure c t).
Proof.
  destruct c; cbn [evaluate procedure fst]; try reflexivity;
    destruct (f t); reflexivity.
Qed.

(** The evaluation comes out as [Exited] exactly when the procedure given to
    the check stops the goroutine. *)
Lemma evaluate_exits {T} `{TB T} (c : check T) (t : T) :
  match snd (evaluate c t) with
  | Exited _ => snd (procedure c t) = Exiting
  | _ => snd (procedure c t) <> Exiting
  end.
Proof.
  destruct c as [A ? ? x y|A ? ? x y| | | | | | |f|f|e g|e g
                |K V ? ? m k|K V ? ? m k| | | | | |];
    cbn [evaluate procedure snd]; unfold decided, ret; try discriminate.
  - destruct (go_eq x y); discriminate.
  - destruct (option_map negb (go_eq x y)); discriminate.
  - destruct (f t) as [t1 [[]|v|]]; cbn [snd]; try discriminate; reflexivity.
  - destruct (f t) as [t1 [[]|v|]]; cbn [snd]; try discriminate; reflexivity.
  - destruct (errors.Is e g); discriminate.
  - destruct (errors.Is e g); discriminate.
  - destruct (option_map assert.found (map_index m k)); discriminate.
  - destruct (option_map _ (map_index m k)); discriminate.
Qed.

Lemma verdict_state (format : string) (args : list any) (pre : Recorder)
    (v : outcome) :
  fst (verdict format args (pre, v)) =
  pre ++ repeat (CErrorf format args) (due v).
Proof. destruct v as [[|]|[|]|v]; simpl; now rewrite ?app_nil_r. Qed.

(** What one variant of a check does when it marks itself [k] times. *)
Lemma variant_shape (c : check Recorder) (format : string) (args : list any)
    (t : Recorder) (k : nat) :
  let e := evaluate c (t ++ repeat CHelper k) in
  let p := procedure c (t ++ repeat CHelper k) in
  let r := verdict format args e in
  fst r = fst p ++ repeat (CErrorf format args) (due (snd e))
  /\ due (snd e) <= 1
  /\ failure_reports (fst r) = failure_reports (fst p) + due (snd e)
  /\ fatal_reports (fst r) = fatal_reports (fst p)
  /\ snd r = completes (snd e)
  /\ evaluable c = match snd e with Raised _ => false | _ => true end
  /\ match snd e with
     | Decided _ => snd p <> Exiting
     | Exited _ => snd p = Exiting
     | Raised _ => snd p <> Exiting /\ fst r = fst p
     end.
Proof.
  cbv zeta. rewrite <- evaluate_state.
  pose proof (evaluate_exits c (t ++ repeat CHelper k)) as X.
  rewrite (evaluate_evaluable c (t ++ repeat CHelper k)).
  destruct (evaluate c (t ++ repeat CHelper k)) as [pre v].
  cbn [fst snd] in *. rewrite verdict_state, verdict_completion.
  destruct (verdict_reports format args pre v) as [R F].
  rewrite verdict_state in R, F.
  repeat split; try assumption.
  - destruct v as [[|]|[|]|v]; simpl; lia.
  - destruct v as [[|]|[|]|v]; try assumption. split; [assumption|].
    simpl. now rewrite app_nil_r.
Qed.

(** C6, on operands without [==].  [Equal] at type [any] on two slices marks
    itself as a helper and then panics in [!=]: it does not return to its
    caller, and reports nothing. *)
Lemma C6_counterexample_uncomparable :
  assert.Equal (Some (DSlice TInt (Some [Some (DInt 1)])) : any)
               (Some (DSlice TInt (Some [Some (DInt 1)])) : any) []
  = ([CHelper; CHelper],
     Panicking (DNamed "runtime.Error"
                  (DString "comparing uncomparable type []int"))).
Proof. reflexivity. Qed.

(** The same at a struct type with a field of interface type. *)
Example Equalf_panics_at_struct_type :
  assert.Equalf (notions.Hold (Some (DSlice TInt None)))
                (notions.Hold (Some (DSlice TInt None))) "equal" [] []
  = ([CHelper],
     Panicking (DNamed "runtime.Error"
                  (DString "comparing uncomparable type []int"))).
Proof. reflexivity. Qed.

(** C6, amended.  Every check, in both variants and on every input, adds to
    what the procedure it is given does on the context only helper marks
    before and at most one call after: no call when the predicate holds, one
    [Errorf] (a non-fatal report) when it does not; it never makes a fatal
    report; and it returns nothing but the payload [Panics] recovers.  It
    returns to the caller except in two cases.  When the evaluation of the
    predicate panics ([==] in [Equal] and [NotEqual] or the map index in
    [MapContainsKey] and [MapDoesNotContainKey] on operands for which it
    panics, or [errors.Is] in [ErrorIs] and [ErrorIsNot]), that panic leaves
    the check and nothing is reported.  When the procedure given to [Panics]
    or [DoesNotPanic] stops its goroutine, the check still decides on its
    report ([Panics] reports, [DoesNotPanic] does not) and does not return. *)
Theorem C6_every_check_reports_at_most_once
    (c : check Recorder) (format : string) (args : list any) (t : Recorder) :
  let k := helper_calls c in
  (let e := evaluate c (t ++ repeat CHelper k) in
   let p := procedure c (t ++ repeat CHelper k) in
   let r := formatted c format args t in
   fst r = fst p ++ repeat (CErrorf format args) (due (snd e))
   /\ due (snd e) <= 1
   /\ failure_reports (fst r) = failure_reports (fst p) + due (snd e)
   /\ fatal_reports (fst r) = fatal_reports (fst p)
   /\ snd r = completes (snd e)
   /\ evaluable c = match snd e with Raised _ => false | _ => true end
   /\ match snd e with
      | Decided _ => snd p <> Exiting
      | Exited _ => snd p = Exiting
      | Raised _ => snd p <> Exiting /\ fst r = fst p
      end)
  /\
  (let e := evaluate c (t ++ repeat CHelper (S k)) in
   let p := procedure c (t ++ repeat CHelper (S k)) in
   let r := default c t in
   fst r = fst p ++
           repeat (CErrorf (fst (message c)) (snd (message c))) (due (snd e))
   /\ due (snd e) <= 1
   /\ failure_reports (fst r) = failure_reports (fst p) + due (snd e)
   /\ fatal_reports (fst r) = fatal_reports (fst p)
   /\ snd r = completes (snd e)
   /\ evaluable c = match snd e with Raised _ => false | _ => true end
   /\ match snd e with
      | Decided _ => snd p <> Exiting
      | Exited _ => snd p = Exiting
      | Raised _ => snd p <> Exiting /\ fst r = fst p
      end).
Proof.
  cbv zeta. rewrite formatted_Recorder, default_Recorder.
  split; apply variant_shape.
Qed.

(** C7.  The default-message variant of every check marks itself as a helper
    and calls the formatted variant with its built-in message; and whatever
    message the formatted variant is given on the same checked inputs, it
    makes as many failure reports and completes the same way. *)
Theorem C7_default_delegates_to_formatted
    (c : check Recorder) (format : string) (args : list any) (t : Recorder) :
  default c t = formatted c (fst (message c)) (snd (message c)) (Helper t)
  /\ failure_reports (fst (default c t)) =
       failure_reports (fst (formatted c format args (Helper t)))
  /\ fatal_reports (fst (default c t)) =
       fatal_reports (fst (formatted c format args (Helper t)))
  /\ snd (default c t) = snd (formatted c format args (Helper t)).
Proof.
  split; [apply default_run|].
  rewrite default_run, !formatted_Recorder.
  destruct (evaluate c (Helper t ++ repeat CHelper (helper_calls c))) as [pre v].
  destruct (verdict_reports (fst (message c)) (snd (message c)) pre v) as [R F].
  destruct (verdict_reports format args pre v) as [R' F'].
  rewrite R, F, R', F', !verdict_completion. auto.
Qed.

End EveryCheck.

(** *** ErrorIs and ErrorIsNot *)

Section ErrorClaims.

Import Go testing checks.

Lemma all_causes_In (P : errors.value -> Prop) (cs : list (option errors.value)) :
  errors.all_causes P cs <-> (forall c, In (Some c) cs -> P c).
Proof.
  induction cs as [|[d|] cs IH]; simpl.
  - split; [intros _ c [] | trivial].
  - rewrite IH. split.
    + intros [Pd Pcs] c [E|i]; [injection E as <-; exact Pd | now apply Pcs].
    + intros A. split; [apply A; now left | intros c i; apply A; now right].
  - rewrite IH. split.
    + intros Pcs c [E|i]; [discriminate | now apply Pcs].
    + intros A c i. apply A. now right.
Qed.

Lemma orelse_true (a b : dyn + bool) :
  errors.orelse a b = inr true <-> a = inr true \/ (a = inr false /\ b = inr true).
Proof.
  destruct a as [v|[|]]; simpl.
  - split; [discriminate | intros [E|[E _]]; discriminate].
  - split; auto.
  - split; [auto | intros [E|[_ E]]; [discriminate | exact E]].
Qed.

Lemma orelse_false (a b : dyn + bool) :
  errors.orelse a b = inr false <-> a = inr false /\ b = inr false.
Proof.
  destruct a as [v|[|]]; simpl.
  - split; [discriminate | intros [E _]; discriminate].
  - split; [discriminate | intros [E _]; discriminate].
  - split; [auto | intros [_ E]; exact E].
Qed.

Lemma any_cause_true (walk : errors.value -> dyn + bool)
    (cs : list (option errors.value)) :
  errors.any_cause walk cs = inr true ->
  exists c, In (Some c) cs /\ walk c = inr true.
Proof.
  induction cs as [|[d|] cs IH]; simpl; [discriminate| |].
  - intros R. apply orelse_true in R as [R|[_ R]].
    + exists d. auto.
    + destruct (IH R) as [c [i W]]. exists c. auto.
  - intros R. destruct (IH R) as [c [i W]]. exists c. auto.
Qed.

Lemma any_cause_false (walk : errors.value -> dyn + bool)
    (cs : list (option errors.value)) :
  errors.any_cause walk cs = inr false ->
  forall c, In (Some c) cs -> walk c = inr false.
Proof.
  induction cs as [|[d|] cs IH]; simpl; [intros _ c []| |].
  - intros R c [E|i]; apply orelse_false in R as [R1 R2].
    + injection E as <-. exact R1.
    + now apply IH.
  - intros R c [E|i]; [discriminate | now apply IH].
Qed.

(** The loop [is], one round at a time. *)
Lemma is_unfold (e target : errors.value) (cmp : bool) :
  errors.is_ e target cmp =
  errors.orelse (errors.test cmp target (errors.head e))
    match e with
    | errors.Leaf _ | errors.Wrap _ None => inr false
    | errors.Wrap _ (Some c) => errors.is_ c target cmp
    | errors.Join _ cs => errors.any_cause (fun c => errors.is_ c target cmp) cs
    end.
Proof.
  destruct e as [h|h [c|]|h cs]; try reflexivity.
  cbn [errors.is_ errors.head]. f_equal.
  induction cs as [|[d|] cs IH]; simpl; [reflexivity| |]; now rewrite IH.
Qed.

Lemma test_true (target e : errors.value) :
  errors.test (errors.comparable_type (errors.head target)) target
    (errors.head e) = inr true ->
  spec.IsMatch target e.
Proof.
  unfold errors.test. intros A. apply orelse_true in A as [A|[_ A]].
  - destruct (errors.comparable_type (errors.head target)) eqn:C;
      [|discriminate]. now apply spec.is_equal.
  - destruct (errors.is_method (errors.head e)) as [p|] eqn:M; [|discriminate].
    now apply spec.is_accepted with p.
Qed.

Lemma test_false (target e : errors.value) :
  errors.test (errors.comparable_type (errors.head target)) target
    (errors.head e) = inr false ->
  (errors.comparable_type (errors.head target) = true ->
   errors.equals (errors.head e) (errors.ident (errors.head target)) = inr false)
  /\ forall p, errors.is_method (errors.head e) = Some p ->
               p (errors.ident (errors.head target)) = inr false.
Proof.
  unfold errors.test. intros A. apply orelse_false in A as [A B]. split.
  - intros C. now rewrite C in A.
  - intros p M. now rewrite M in B.
Qed.

(** When the walk of [errors.Is] returns, it returns true exactly when the
    error matches the target as [errors.Is] reads a match. *)
Lemma is_IsMatch (target e : errors.value) (b : bool) :
  errors.is_ e target (errors.comparable_type (errors.head target)) = inr b ->
  (b = true <-> spec.IsMatch target e).
Proof.
  intros R. split.
  - intros ->. revert R.
    induction e as [h|h|h c IH|h cs IH] using value_induction;
      rewrite is_unfold; intros R; apply orelse_true in R as [R|[_ R]];
      try (now apply test_true); try discriminate.
    + apply spec.is_cause with c; [constructor | now apply IH].
    + apply any_cause_true in R as [c [i R]].
      apply spec.is_cause with c; [now constructor|].
      now apply (proj1 (all_causes_In _ _) IH).
  - intros M. revert b R.
    induction M as [e C E|e p M A|e c U _ IH]; intros b R;
      destruct b; try reflexivity; rewrite is_unfold in R;
      apply orelse_false in R as [R1 R2]; apply test_false in R1 as [T1 T2].
    + rewrite (T1 C) in E. discriminate.
    + rewrite (T2 p M) in A. discriminate.
    + destruct U as [h c|h cs c i].
      * now apply IH.
      * apply IH. now apply (any_cause_false _ _ R2).
Qed.

Lemma Is_is_match (err target : errors.error) (b : bool) :
  errors.Is err target = inr b -> (b = true <-> spec.is_match err target).
Proof.
  destruct err as [e|], target as [tg|]; simpl.
  - apply is_IsMatch.
  - intros E. injection E as <-. split; [discriminate | contradiction].
  - intros E. injection E as <-. split; [discriminate | contradiction].
  - intros E. injection E as <-. split; trivial.
Qed.

Lemma ErrorIs_run (err target : errors.error) (format : string)
    (args : list any) (t : Recorder) :
  assert.ErrorIsf err target format args t =
    match errors.Is err target with
    | inr true => (t ++ [CHelper], Normal tt)
    | inr false => (t ++ [CHelper; CErrorf format args], Normal tt)
    | inl payload => (t ++ [CHelper], Panicking payload)
    end
  /\ assert.ErrorIsNotf err target format args t =
    match errors.Is err target with
    | inr true => (t ++ [CHelper; CErrorf format args], Normal tt)
    | inr false => (t ++ [CHelper], Normal tt)
    | inl payload => (t ++ [CHelper], Panicking payload)
    end.
Proof.
  unfold assert.ErrorIsf, assert.ErrorIsNotf, bind, call, returned, ret.
  simpl Helper. unfold record.
  destruct (errors.Is err target) as [v|[|]]; simpl; unfold record;
    rewrite <- ?app_assoc; split; reflexivity.
Qed.

Lemma ErrorIs_reports (err target : errors.error) (format : string)
    (args : list any) (t : Recorder) :
  let due_is := match errors.Is err target with inr false => 1 | _ => 0 end in
  let due_not := match errors.Is err target with inr true => 1 | _ => 0 end in
  let done := match errors.Is err target with
              | inr _ => Normal tt
              | inl payload => Panicking payload
              end in
  (failure_reports (fst (assert.ErrorIs err target t)) = failure_reports t + due_is
   /\ failure_reports (fst (assert.ErrorIsf err target format args t)) =
        failure_reports t + due_is
   /\ failure_reports (fst (assert.ErrorIsNot err target t)) =
        failure_reports t + due_not
   /\ failure_reports (fst (assert.ErrorIsNotf err target format args t)) =
        failure_reports t + due_not)
  /\ snd (assert.ErrorIs err target t) = done
  /\ snd (assert.ErrorIsf err target format args t) = done
  /\ snd (assert.ErrorIsNot err target t) = done
  /\ snd (assert.ErrorIsNotf err target format args t) = done.
Proof.
  cbv zeta.
  change (assert.ErrorIs err target t)
    with (assert.ErrorIsf err target "expected error %v to be %v"
            [to_any err; to_any target] (t ++ [CHelper])).
  change (assert.ErrorIsNot err target t)
    with (assert.ErrorIsNotf err target "expected error %v to not be %v"
            [to_any err; to_any target] (t ++ [CHelper])).
  rewrite !(proj1 (ErrorIs_run err target _ _ _)),
          !(proj2 (ErrorIs_run err target _ _ _)).
  destruct (errors.Is err target) as [v|[|]]; cbn [fst snd];
    rewrite ?failure_reports_app, ?failure_reports_single;
    change (failure_reports [CHelper]) with 0;
    change (failure_reports [CHelper; CErrorf "expected error %v to be %v"
                               [to_any err; to_any target]]) with 1;
    change (failure_reports [CHelper; CErrorf "expected error %v to not be %v"
                               [to_any err; to_any target]]) with 1;
    change (failure_reports [CHelper; CErrorf format args]) with 1;
    simpl; repeat split; lia.
Qed.

(** C8, at an error of a type without [==].  An error value of a slice type
    is its own target, yet [ErrorIs(t, err, err)] reports a failure and
    [ErrorIsNot(t, err, err)] passes: [errors.Is] asks [err == target] only
    of a target of a comparable type. *)
Lemma C8_counterexample_uncomparable_target :
  let err := Some (spec.uncomparable_error 0 (TNamed "MultiError")) in
  spec.matches err err
  /\ failure_reports (fst (assert.ErrorIs err err ([] : Recorder))) = 1
  /\ failure_reports (fst (assert.ErrorIsNot err err ([] : Recorder))) = 0.
Proof.
  cbv zeta. split; [|split; reflexivity].
  apply spec.match_same. reflexivity.
Qed.

(** An error of a comparable struct type whose interface field holds a
    slice: [err == err] panics, and so do [errors.Is] and [ErrorIs]. *)
Example ErrorIs_panics_in_equality :
  let payload := run_time_error "comparing uncomparable type " (Some (TSlice TInt)) in
  let err := Some (errors.Leaf {| errors.ident := 0;
                                  errors.comparable_type := true;
                                  errors.equals := fun _ => inl payload;
                                  errors.is_method := None |}) in
  assert.ErrorIs err err ([] : Recorder) = ([CHelper; CHelper], Panicking payload).
Proof. reflexivity. Qed.

(** An error of a comparable struct type with a field holding a NaN:
    [err == err] is false, and [ErrorIs(t, err, err)] reports. *)
Example ErrorIs_reports_on_unequal_self :
  let err := Some (errors.Leaf {| errors.ident := 0;
                                  errors.comparable_type := true;
                                  errors.equals := fun _ => inr false;
                                  errors.is_method := None |}) in
  failure_reports (fst (assert.ErrorIs err err ([] : Recorder))) = 1
  /\ snd (assert.ErrorIs err err ([] : Recorder)) = Normal tt.
Proof. split; reflexivity. Qed.

(** C8, amended.  When [errors.Is] returns, [ErrorIs] (and [ErrorIsf])
    reports no failure if and only if [err] matches [target] along the chain
    of wrapped causes, where an error is the target when it [==] the target
    and the target is of a comparable type, and [ErrorIsNot] (and
    [ErrorIsNotf]) reports no failure if and only if it does not match: of
    the two, exactly one reports, once.  When a [==] or an [Is] method that
    [errors.Is] evaluates panics, both checks panic and report nothing.  An
    error that wraps the target passes [ErrorIs]; of two errors made by
    [errors.New], one passes against the other only when they are the same;
    with a nil [err] the checks complete normally, and against a non-nil
    target [ErrorIs] reports. *)
Theorem C8_ErrorIs_follows_the_chain
    (err target : errors.error) (format : string) (args : list any)
    (t : Recorder) (tg : errors.value) (n m : nat) :
  match errors.Is err target with
  | inr b =>
      (b = true <-> spec.is_match err target)
      /\ (failure_reports (fst (assert.ErrorIs err target t)) = failure_reports t
          <-> spec.is_match err target)
      /\ (failure_reports (fst (assert.ErrorIsf err target format args t)) =
            failure_reports t <-> spec.is_match err target)
      /\ (failure_reports (fst (assert.ErrorIsNot err target t)) = failure_reports t
            <-> ~ spec.is_match err target)
      /\ (failure_reports (fst (assert.ErrorIsNotf err target format args t)) =
            failure_reports t <-> ~ spec.is_match err target)
      /\ failure_reports (fst (assert.ErrorIs err target t)) +
           failure_reports (fst (assert.ErrorIsNot err target t)) =
           failure_reports t + failure_reports t + 1
      /\ snd (assert.ErrorIs err target t) = Normal tt
      /\ snd (assert.ErrorIsNot err target t) = Normal tt
  | inl payload =>
      snd (assert.ErrorIs err target t) = Panicking payload
      /\ snd (assert.ErrorIsNot err target t) = Panicking payload
      /\ failure_reports (fst (assert.ErrorIs err target t)) = failure_reports t
      /\ failure_reports (fst (assert.ErrorIsNot err target t)) = failure_reports t
  end
  /\
  (failure_reports
     (fst (assert.ErrorIs (Some (errors.Errorf_w n (Some (errors.New m))))
             (Some (errors.New m)) t)) = failure_reports t
   /\ failure_reports
        (fst (assert.ErrorIs (Some (errors.New n)) (Some (errors.New m)) t)) =
        failure_reports t + (if Nat.eqb n m then 0 else 1))
  /\
  (snd (assert.ErrorIs None target t) = Normal tt
   /\ snd (assert.ErrorIsNot None target t) = Normal tt
   /\ errors.Is None (Some tg) = inr false
   /\ failure_reports (fst (assert.ErrorIs None (Some tg) t)) =
        failure_reports t + 1
   /\ failure_reports (fst (assert.ErrorIsNot None (Some tg) t)) =
        failure_reports t).
Proof.
  split; [|split].
  - destruct (ErrorIs_reports err target format args t)
      as [[R1 [R2 [R3 R4]]] [C1 [_ [C3 _]]]].
    pose proof (Is_is_match err target) as M.
    destruct (errors.Is err target) as [v|b].
    + rewrite R1, R3. repeat split; auto.
    + rewrite R1, R2, R3, R4. specialize (M b eq_refl).
      rewrite <- M.
      destruct b; repeat split; intros; try lia; try discriminate;
        try congruence; auto.
  - destruct (ErrorIs_reports (Some (errors.Errorf_w n (Some (errors.New m))))
                (Some (errors.New m)) format args t) as [[R1 _] _].
    destruct (ErrorIs_reports (Some (errors.New n)) (Some (errors.New m))
                format args t) as [[R2 _] _].
    rewrite R1, R2. simpl. unfold errors.test, errors.pointer_equals. simpl.
    rewrite Nat.eqb_refl. destruct (Nat.eqb n m); simpl; split; lia.
  - destruct (ErrorIs_reports None target format args t)
      as [_ [C1 [_ [C2 _]]]].
    destruct (ErrorIs_reports None (Some tg) format args t)
      as [[R1 [_ [R3 _]]] _].
    rewrite R1, R3, C1, C2. simpl.
    destruct target; repeat split; auto.
Qed.

End ErrorClaims.

(** *** The spy *)

Section SpyFacts.

Import Go testing.

Context {W : Type} `{TB W}.

(** The verification helpers on any wrapped context. *)
Lemma ExpectFailure_run (s : spy.TBSpy W) :
  spy.ExpectFailure s =
  ({| spy.TB :=
        (if spy.failed s then fun w => w
         else Errorf "[spy] Expected test failure but got success" [])
          (Helper (Helper (Helper (spy.TB s))));
      spy.failed := spy.failed s |}, Normal tt).
Proof. destruct s as [w [|]]; reflexivity. Qed.

Lemma ExpectSuccess_run (s : spy.TBSpy W) :
  spy.ExpectSuccess s =
  ({| spy.TB :=
        (if spy.failed s
         then Errorf "[spy] Expected test success but got failure" []
         else fun w => w)
          (Helper (Helper (Helper (spy.TB s))));
      spy.failed := spy.failed s |}, Normal tt).
Proof. destruct s as [w [|]]; reflexivity. Qed.

(** An operation sets the flag when it is an intercepted one, and leaves it
    as it is otherwise. *)
Lemma step_failed (s : spy.TBSpy W) (o : spy.Op) :
  spy.failed (spy.step s o) = spy.failed s || spy.intercepted o.
Proof.
  destruct o; cbn [spy.step spy.intercepted];
    rewrite ?ExpectFailure_run, ?ExpectSuccess_run; simpl;
    rewrite ?orb_true_r, ?orb_false_r; reflexivity.
Qed.

Lemma run_failed (ops : list spy.Op) (s : spy.TBSpy W) :
  spy.failed (spy.run ops s) = spy.failed s || existsb spy.intercepted ops.
Proof.
  revert s. induction ops as [|o ops IH]; intros s.
  - simpl. now rewrite orb_false_r.
  - change (spy.run (o :: ops) s) with (spy.run ops (spy.step s o)).
    rewrite IH, step_failed. simpl. now rewrite orb_assoc.
Qed.

(** The wrapped context receives from an operation the calls [forwarded]
    lists, and nothing else. *)
Lemma step_TB (s : spy.TBSpy W) (o : spy.Op) :
  spy.TB (spy.step s o) = replay (spec.forwarded (spy.failed s) o) (spy.TB s).
Proof.
  destruct o; cbn [spy.step]; rewrite ?ExpectFailure_run, ?ExpectSuccess_run;
    try reflexivity; destruct s as [w [|]]; reflexivity.
Qed.

(** What is forwarded for an intercepted operation does not depend on the
    flag and is on the non-failing channel. *)
Lemma forwarded_intercepted (flag flag' : bool) (o : spy.Op) :
  spy.intercepted o = true ->
  spec.forwarded flag o = spec.forwarded flag' o /\
  Forall (fun c => is_passthrough c = true) (spec.forwarded flag o).
Proof.
  destruct o; simpl; try discriminate; intros _; split; try reflexivity;
    repeat constructor.
Qed.

Lemma run_TB_intercepted (flag : bool) (ops : list spy.Op) (s : spy.TBSpy W) :
  forallb spy.intercepted ops = true ->
  spy.TB (spy.run ops s) =
    replay (flat_map (spec.forwarded flag) ops) (spy.TB s) /\
  Forall (fun c => is_passthrough c = true)
    (flat_map (spec.forwarded flag) ops).
Proof.
  revert s. induction ops as [|o ops IH]; intros s A.
  - split; [reflexivity | constructor].
  - simpl in A. apply andb_true_iff in A as [Ao A].
    change (spy.run (o :: ops) s) with (spy.run ops (spy.step s o)).
    destruct (IH (spy.step s o) A) as [E F].
    destruct (forwarded_intercepted flag (spy.failed s) o Ao) as [Ef Ff].
    split.
    + rewrite E, step_TB. simpl. rewrite replay_app, Ef. reflexivity.
    + simpl. apply Forall_app. split; assumption.
Qed.

End SpyFacts.

Section SpyClaims.

Import Go testing.

(** C3.  After any sequence of intercepted failure-reporting calls on a spy
    ([Fail], [FailNow], [Error], [Errorf], [Fatal], [Fatalf]) the wrapped
    context has received from the spy its helper marks and, for each
    message-carrying call, the message on [Log] or [Logf], and nothing else:
    no failure-reporting call, so it has as many failure reports as before
    and has not become failed. *)
Theorem C3_spy_forwards_no_failure
    (ops : list spy.Op) (t : Recorder) (flag : bool) :
  forallb spy.intercepted ops = true ->
  let s := spy.run ops (spy.SpyOn t) in
  spy.TB s = t ++ flat_map (spec.forwarded flag) ops
  /\ Forall (fun c => is_passthrough c = true /\ is_failure_report c = false)
       (flat_map (spec.forwarded flag) ops)
  /\ failure_reports (spy.TB s) = failure_reports t
  /\ fatal_reports (spy.TB s) = fatal_reports t
  /\ Failed (spy.TB s) = Failed t.
Proof.
  intros A. cbv zeta.
  destruct (run_TB_intercepted flag ops (spy.SpyOn t) A) as [E F].
  rewrite E, replay_Recorder. cbn [spy.TB spy.SpyOn].
  split; [reflexivity|]. split; [|split; [|split]].
  - eapply Forall_impl; [|exact F]. intros c Pc. split; [exact Pc|].
    destruct c; simpl in *; congruence.
  - rewrite failure_reports_app, (failure_reports_passthrough _ F). lia.
  - rewrite fatal_reports_app.
    assert (Z : fatal_reports (flat_map (spec.forwarded flag) ops) = 0).
    { clear E. induction F as [|c u Pc _ IH]; [reflexivity|].
      unfold fatal_reports in *. simpl.
      destruct c; simpl in *; try discriminate; exact IH. }
    lia.
  - rewrite Failed_app, (Failed_passthrough _ F). apply orb_false_r.
Qed.

Lemma C3_spy_forwards_no_failure_witness :
  let ops := [spy.OErrorf "test error %s" [Some (DString "foo")];
              spy.OFail; spy.OFatal [Some (DString "test fatal")]] in
  let s := spy.run ops (spy.SpyOn ([] : Recorder)) in
  spy.TB s = [CHelper; CLogf "test error %s" [Some (DString "foo")];
              CHelper; CHelper; CLog [Some (DString "test fatal")]]
  /\ failure_reports (spy.TB s) = 0
  /\ Failed (spy.TB s) = false.
Proof.
  cbv zeta.
  destruct (C3_spy_forwards_no_failure
              [spy.OErrorf "test error %s" [Some (DString "foo")];
               spy.OFail; spy.OFatal [Some (DString "test fatal")]]
              [] true eq_refl) as [E [_ [R [_ F]]]].
  split; [exact E|]. split; [exact R | exact F].
Defined.

(** C4.  Once one of the failure-reporting operations of a spy has been
    invoked, whatever was invoked before and after it,
    [SpiedOnAFailure] returns true, [ExpectFailure] reports nothing on the
    wrapped context and [ExpectSuccess] reports exactly one failure on it, a
    non-fatal one; on a spy on which none has been invoked,
    [SpiedOnAFailure] returns false, [ExpectFailure] reports exactly one
    failure on the wrapped context and [ExpectSuccess] reports nothing.
    Both helpers complete normally. *)
Theorem C4_spy_round_trip
    (before after quiet : list spy.Op) (o : spy.Op) (t : Recorder) :
  spy.intercepted o = true ->
  existsb spy.intercepted quiet = false ->
  (let s := spy.run (before ++ o :: after) (spy.SpyOn t) in
   spy.SpiedOnAFailure s = true
   /\ failure_reports (spy.TB (fst (spy.ExpectFailure s))) =
        failure_reports (spy.TB s)
   /\ failure_reports (spy.TB (fst (spy.ExpectSuccess s))) =
        failure_reports (spy.TB s) + 1
   /\ fatal_reports (spy.TB (fst (spy.ExpectSuccess s))) =
        fatal_reports (spy.TB s)
   /\ snd (spy.ExpectFailure s) = Normal tt
   /\ snd (spy.ExpectSuccess s) = Normal tt)
  /\
  (let s := spy.run quiet (spy.SpyOn t) in
   spy.SpiedOnAFailure s = false
   /\ failure_reports (spy.TB (fst (spy.ExpectFailure s))) =
        failure_reports (spy.TB s) + 1
   /\ fatal_reports (spy.TB (fst (spy.ExpectFailure s))) =
        fatal_reports (spy.TB s)
   /\ failure_reports (spy.TB (fst (spy.ExpectSuccess s))) =
        failure_reports (spy.TB s)
   /\ snd (spy.ExpectFailure s) = Normal tt
   /\ snd (spy.ExpectSuccess s) = Normal tt).
Proof.
  intros Io Q. cbv zeta. split.
  - assert (F : spy.failed (spy.run (before ++ o :: after) (spy.SpyOn t)) = true).
    { rewrite run_failed, existsb_app. simpl. rewrite Io.
      now rewrite orb_true_r. }
    rewrite ExpectFailure_run, ExpectSuccess_run. unfold spy.SpiedOnAFailure.
    rewrite F. cbn [fst snd spy.TB]. simpl Helper. simpl Errorf. unfold record.
    rewrite !failure_reports_app, !fatal_reports_app.
    rewrite !failure_reports_single, !fatal_reports_single. simpl.
    repeat split; lia.
  - assert (F : spy.failed (spy.run quiet (spy.SpyOn t)) = false).
    { rewrite run_failed, Q. reflexivity. }
    rewrite ExpectFailure_run, ExpectSuccess_run. unfold spy.SpiedOnAFailure.
    rewrite F. cbn [fst snd spy.TB]. simpl Helper. simpl Errorf. unfold record.
    rewrite !failure_reports_app, !fatal_reports_app.
    rewrite !failure_reports_single, !fatal_reports_single. simpl.
    repeat split; lia.
Qed.

Lemma C4_spy_round_trip_witness :
  let s := spy.run [spy.OHelper; spy.OFail; spy.OLog []] (spy.SpyOn ([] : Recorder)) in
  let s0 := spy.run [spy.OHelper; spy.OExpectSuccess] (spy.SpyOn ([] : Recorder)) in
  (spy.SpiedOnAFailure s = true
   /\ failure_reports (spy.TB (fst (spy.ExpectFailure s))) = 0
   /\ failure_reports (spy.TB (fst (spy.ExpectSuccess s))) = 1)
  /\ (spy.SpiedOnAFailure s0 = false
      /\ failure_reports (spy.TB (fst (spy.ExpectFailure s0))) = 1
      /\ failure_reports (spy.TB (fst (spy.ExpectSuccess s0))) = 0).
Proof.
  cbv zeta.
  destruct (C4_spy_round_trip [spy.OHelper] [spy.OLog []]
              [spy.OHelper; spy.OExpectSuccess] spy.OFail [] eq_refl eq_refl)
    as [[A [B [C _]]] [D [E [_ [G _]]]]].
  split; (split; [|split]); assumption.
Defined.

(** C5.  The flag of a spy is false when [SpyOn] returns it; every call of
    an intercepted failure-reporting operation sets it; and once it is set
    it stays set through every later operation on that spy: an operation
    only ever adds to the flag. *)
Theorem C5_spy_flag_is_monotone {W} `{TB W}
    (t : W) (s : spy.TBSpy W) (o : spy.Op) (ops : list spy.Op) :
  spy.failed (spy.SpyOn t) = false
  /\ spy.failed (spy.step s o) = (spy.failed s || spy.intercepted o)
  /\ spy.failed (spy.run ops s) = (spy.failed s || existsb spy.intercepted ops)
  /\ (spy.intercepted o = true -> spy.failed (spy.step s o) = true)
  /\ (spy.failed s = true -> spy.failed (spy.run ops s) = true).
Proof.
  split; [reflexivity|]. split; [apply step_failed|].
  split; [apply run_failed|]. split.
  - intros Io. rewrite step_failed, Io. apply orb_true_r.
  - intros F. rewrite run_failed, F. reflexivity.
Qed.

Lemma C5_spy_flag_is_monotone_witness :
  let s := spy.Fail (spy.SpyOn ([] : Recorder)) in
  spy.failed (spy.SpyOn ([] : Recorder)) = false
  /\ spy.failed (spy.step (spy.SpyOn ([] : Recorder)) (spy.OFatal [])) = true
  /\ spy.failed
       (spy.run [spy.OExpectSuccess; spy.OLog []; spy.OSpiedOnAFailure] s) = true.
Proof.
  cbv zeta.
  destruct (C5_spy_flag_is_monotone ([] : Recorder) (spy.SpyOn ([] : Recorder))
              (spy.OFatal []) []) as [A [_ [_ [B _]]]].
  destruct (C5_spy_flag_is_monotone ([] : Recorder)
              (spy.Fail (spy.SpyOn ([] : Recorder))) spy.OFail
              [spy.OExpectSuccess; spy.OLog []; spy.OSpiedOnAFailure])
    as [_ [_ [_ [_ C]]]].
  split; [exact A|]. split; [apply B; reflexivity | apply C; reflexivity].
Defined.

End SpyClaims.

(** *** The tests of the repository, run on the model *)

Section RepositoryTests.

Import Go testing.

Let errToCompare : errors.value := errors.New 0.
Let wrapped : errors.error := Some (errors.Errorf_w 1 (Some errToCompare)).
Let m : gomap string string := Some [("foo", "bar")].

(** What a passing default-message check leaves on the context. *)
Let passed : Recorder * completion unit := ([CHelper; CHelper], Normal tt).

Example TestEqual : assert.Equal 42%Z 42%Z [] = passed.
Proof. reflexivity. Qed.

Example TestNotEqual : assert.NotEqual 1%Z 2%Z [] = passed.
Proof. reflexivity. Qed.

Example TestTrue :
  assert.True true [] = ([CHelper; CHelper; CHelper], Normal tt).
Proof. reflexivity. Qed.

Example TestNil : assert.Nil (to_any (None : any)) [] = passed.
Proof. reflexivity. Qed.

Example TestNotNil : assert.NotNil (to_any "hello") [] = passed.
Proof. reflexivity. Qed.

Example TestStringContains :
  assert.StringContains "golang testing helpers" "testing" [] = passed.
Proof. reflexivity. Qed.

Example TestStringNotContains :
  assert.StringDoesNotContain "golang testing helpers" "foo" [] = passed.
Proof. reflexivity. Qed.

Example TestPanics :
  assert.Panics (panic (to_any "test")) [] =
  ([CHelper; CHelper], Normal (Some (DString "test"))).
Proof. reflexivity. Qed.

Example TestPanics_nil_payload :
  assert.Panics (panic None) [] =
  ([CHelper; CHelper], Normal (Some PanicNilError)).
Proof. reflexivity. Qed.

Example TestDoesNotPanic : assert.DoesNotPanic (ret tt) [] = passed.
Proof. reflexivity. Qed.

Example TestErrorIs : assert.ErrorIs wrapped (Some errToCompare) [] = passed.
Proof. reflexivity. Qed.

Example TestErrorIsNot :
  assert.ErrorIsNot (Some (errors.New 2)) (Some errToCompare) [] = passed.
Proof. reflexivity. Qed.

Example TestMapContainsKey : assert.MapContainsKey m "foo" [] = passed.
Proof. reflexivity. Qed.

Example TestMapDoesNotContainKey :
  assert.MapDoesNotContainKey m "baz" [] = passed.
Proof. reflexivity. Qed.

Example TestEmptyMap :
  assert.EmptyMap (Some [] : gomap string string) [] = passed.
Proof. reflexivity. Qed.

Example TestNotEmptySlice :
  assert.NotEmptySlice (Some ["foo"; "bar"] : slice string) [] = passed.
Proof. reflexivity. Qed.

(** The tests expected to fail run the check on a spy and then
    [ExpectFailure]: the spy has recorded the failure, and the context of the
    test has received the message on [Logf] and no failure. *)
Example TestTrueFails :
  let s := fst (assert.True false (spy.SpyOn ([] : Recorder))) in
  spy.SpiedOnAFailure s = true
  /\ spy.TB s = [CHelper; CHelper; CHelper; CHelper;
                 CLogf "expected %v to be true" [Some (DBool false)]]
  /\ failure_reports (spy.TB (fst (spy.ExpectFailure s))) = 0.
Proof. repeat split; reflexivity. Qed.

Example TestPanicsFails :
  let s := fst (assert.Panics (ret tt) (spy.SpyOn ([] : Recorder))) in
  spy.SpiedOnAFailure s = true
  /\ failure_reports (spy.TB (fst (spy.ExpectFailure s))) = 0.
Proof. repeat split; reflexivity. Qed.

Example TestErrorIsFails :
  let s := fst (assert.ErrorIs wrapped (Some (errors.New 3))
                  (spy.SpyOn ([] : Recorder))) in
  spy.SpiedOnAFailure s = true
  /\ failure_reports (spy.TB (fst (spy.ExpectFailure s))) = 0.
Proof. repeat split; reflexivity. Qed.

Example TestMapContainsKeyFails :
  let s := fst (assert.MapContainsKey m "baz" (spy.SpyOn ([] : Recorder))) in
  spy.SpiedOnAFailure s = true.
Proof. reflexivity. Qed.

Example TestSpyExpectSuccess :
  let s := spy.SpyOn ([] : Recorder) in
  spy.SpiedOnAFailure s = false
  /\ failure_reports (spy.TB (fst (spy.ExpectSuccess s))) = 0.
Proof. repeat split; reflexivity. Qed.

Example TestSpyFatalf :
  let s := spy.Fatalf "test fatal %s" [to_any "foo"] (spy.SpyOn ([] : Recorder)) in
  spy.SpiedOnAFailure s = true
  /\ spy.TB s = [CHelper; CLogf "test fatal %s" [Some (DString "foo")]].
Proof. repeat split; reflexivity. Qed.

End RepositoryTests.

(** *** DoesNotPanic *)

Section DoesNotPanicFacts.

Import Go testing checks.

(** [DoesNotPanicf] and [DoesNotPanic] report a failure, once, if and only
    if the call of [f] panics: the panic is recovered and the check returns
    normally, as it does when [f] returns.  When [f] stops its goroutine
    they report nothing and do not return to the caller. *)
Theorem DoesNotPanic_passes_iff_f_returns
    (f : Exec Recorder unit) (format : string) (args : list any) (t : Recorder) :
  let after := f (t ++ [CHelper]) in
  let r := assert.DoesNotPanicf f format args t in
  let after' := f (t ++ [CHelper; CHelper]) in
  let r' := assert.DoesNotPanic f t in
  (snd r = match snd after with
           | Normal _ | Panicking _ => Normal tt
           | Exiting => Exiting
           end
   /\ (failure_reports (fst r) = failure_reports (fst after)
       <-> panicked (snd after) = false)
   /\ fst r = (if panicked (snd after)
               then fst after ++ [CErrorf format args] else fst after))
  /\
  (snd r' = match snd after' with
            | Normal _ | Panicking _ => Normal tt
            | Exiting => Exiting
            end
   /\ (failure_reports (fst r') = failure_reports (fst after')
       <-> panicked (snd after') = false)
   /\ fst r' = (if panicked (snd after')
                then fst after' ++
                     [CErrorf "expected function to not panic, did panic" []]
                else fst after')).
Proof.
  assert (core : forall fmt a u,
    let after := f (u ++ [CHelper]) in
    let r := assert.DoesNotPanicf f fmt a u in
    snd r = match snd after with
            | Normal _ | Panicking _ => Normal tt
            | Exiting => Exiting
            end
    /\ (failure_reports (fst r) = failure_reports (fst after)
        <-> panicked (snd after) = false)
    /\ fst r = (if panicked (snd after)
                then fst after ++ [CErrorf fmt a] else fst after)).
  { intros fmt a u. cbv zeta. rewrite DoesNotPanicf_run.
    simpl Helper. unfold record.
    destruct (f (u ++ [CHelper])) as [t1 [[]|v|]]; simpl.
    - repeat split; auto.
    - split; [reflexivity|]. split; [|reflexivity]. split; [|discriminate].
      unfold record. rewrite failure_reports_app, failure_reports_single.
      simpl. lia.
    - repeat split; auto. }
  split.
  - apply core.
  - cbv zeta.
    change (assert.DoesNotPanic f t)
      with (assert.DoesNotPanicf f "expected function to not panic, did panic" []
              (t ++ [CHelper])).
    replace (t ++ [CHelper; CHelper]) with ((t ++ [CHelper]) ++ [CHelper])
      by now rewrite <- app_assoc.
    apply core.
Qed.

End DoesNotPanicFacts.

(** *** A check and its opposite *)

Section OppositeFacts.

Import Go testing checks notions.

Lemma opposite_evaluate {T} `{TB T} (c : check T) (t : T) :
  evaluate (opposite c) t =
  (fst (evaluate c t), negated (snd (evaluate c t))).
Proof.
  destruct c as [A ? ? x y|A ? ? x y|b|b|v|v|s u|s u|f|f|e g|e g
                |K V ? ? m k|K V ? ? m k|K V ? ? m|K V ? ? m|E ? s|E ? s
                |A ? ? x y|A ? ? x y];
    cbn [opposite evaluate fst snd negated]; unfold decided;
    rewrite ?negb_involutive; try reflexivity.
  - destruct (go_eq x y) as [[|]|]; reflexivity.
  - destruct (go_eq x y) as [[|]|]; reflexivity.
  - destruct b; reflexivity.
  - destruct b; reflexivity.
  - destruct (f t) as [t1 [[]|w|]]; reflexivity.
  - destruct (f t) as [t1 [[]|w|]]; reflexivity.
  - destruct (errors.Is e g) as [w|[|]]; reflexivity.
  - destruct (errors.Is e g) as [w|[|]]; reflexivity.
  - destruct (map_index m k) as [r|]; reflexivity.
  - destruct (map_index m k) as [r|]; cbn [option_map negated]; [|reflexivity].
    now rewrite negb_involutive.
Qed.

Lemma opposite_helper_calls {T} (c : check T) :
  helper_calls (opposite c) = helper_calls c.
Proof. destruct c; reflexivity. Qed.

(** Of a check and its opposite, called on the same inputs from the same
    state, exactly one reports a failure, once; when the operands cannot be
    compared neither reports and both panic.  They complete the same way
    (normally, unless the procedure they are given stops the goroutine) and
    leave the same context but for that one report. *)
Theorem opposite_checks_exactly_one_reports
    (c : check Recorder) (format : string) (args : list any) (t : Recorder) :
  let base := fst (procedure c (t ++ repeat CHelper (helper_calls c))) in
  let r := formatted c format args t in
  let r' := formatted (opposite c) format args t in
  failure_reports (fst r) + failure_reports (fst r') =
    failure_reports base + failure_reports base + (if evaluable c then 1 else 0)
  /\ snd r = snd r'
  /\ (if evaluable c
      then snd r =
           match snd (procedure c (t ++ repeat CHelper (helper_calls c))) with
           | Exiting => Exiting
           | _ => Normal tt
           end
      else fst r = base /\ fst r' = base
           /\ exists payload, snd r = Panicking payload).
Proof.
  cbv zeta. rewrite !formatted_Recorder, opposite_helper_calls.
  rewrite opposite_evaluate, <- evaluate_state.
  pose proof (evaluate_exits c (t ++ repeat CHelper (helper_calls c))) as X.
  rewrite (evaluate_evaluable c (t ++ repeat CHelper (helper_calls c))).
  destruct (evaluate c (t ++ repeat CHelper (helper_calls c)))
    as [pre [[|]|[|]|v]];
    cbn [fst snd negated negb verdict] in *; simpl Errorf; unfold record;
    rewrite ?failure_reports_app, ?failure_reports_single; simpl;
    try rewrite X;
    repeat split; try lia; try (now exists v);
    destruct (snd (procedure c (t ++ repeat CHelper (helper_calls c))));
    try reflexivity; now elim X.
Qed.

End OppositeFacts.

(** *** StringContains and StringDoesNotContain *)

Section StringFacts.

Import Go testing checks notions.

Lemma prefix_append (substr s : string) :
  String.prefix substr s = true <->
  exists after, s = String.append substr after.
Proof.
  revert s. induction substr as [|a substr IH]; intros s.
  - split; [intros _; now exists s|]. intros _. destruct s; reflexivity.
  - destruct s as [|b s]; simpl.
    + split; [discriminate | intros [after E]; discriminate].
    + destruct (ascii_dec a b) as [->|ne].
      * rewrite IH. split; intros [after E]; exists after.
        -- now rewrite E.
        -- now injection E.
      * split; [discriminate|]. intros [after E]. injection E as E _.
        now elim ne.
Qed.

Lemma Contains_unfold (s substr : string) :
  strings.Contains s substr =
  String.prefix substr s ||
  match s with
  | EmptyString => false
  | String _ rest => strings.Contains rest substr
  end.
Proof. destruct s; reflexivity. Qed.

(** [strings.Contains] holds exactly when the substring occurs. *)
Lemma Contains_occurs (s substr : string) :
  strings.Contains s substr = true <-> occurs substr s.
Proof.
  split.
  - induction s as [|a s IH]; rewrite Contains_unfold; intros C;
      apply orb_true_iff in C as [C|C]; try discriminate.
    + apply prefix_append in C as [after E]. now exists EmptyString, after.
    + apply prefix_append in C as [after E]. now exists EmptyString, after.
    + destruct (IH C) as [before [after E]].
      exists (String a before), after. simpl. now rewrite E.
  - intros [before [after E]]. revert s E.
    induction before as [|a before IH]; intros s E; rewrite Contains_unfold;
      apply orb_true_iff.
    + left. apply prefix_append. now exists after.
    + right. subst s. simpl. now apply IH.
Qed.

(** [StringContains] and [StringContainsf] report no failure if and only if
    the substring occurs in the string, [StringDoesNotContain] and
    [StringDoesNotContainf] if and only if it does not.  So the empty
    substring is contained in every string, and every string in itself. *)
Theorem StringContains_passes_iff_occurs
    (str substr : string) (format : string) (args : list any) (t : Recorder) :
  ((failure_reports (fst (assert.StringContains str substr t)) = failure_reports t
      <-> occurs substr str)
   /\ (failure_reports (fst (assert.StringContainsf str substr format args t)) =
         failure_reports t <-> occurs substr str)
   /\ (failure_reports (fst (assert.StringDoesNotContain str substr t)) =
         failure_reports t <-> ~ occurs substr str)
   /\ (failure_reports (fst (assert.StringDoesNotContainf str substr format args t)) =
         failure_reports t <-> ~ occurs substr str))
  /\ failure_reports (fst (assert.StringContains str EmptyString t)) =
       failure_reports t
  /\ failure_reports (fst (assert.StringContains str str t)) = failure_reports t
  /\ failure_reports (fst (assert.StringDoesNotContain str str t)) =
       failure_reports t + 1.
Proof.
  assert (R : forall s u,
    failure_reports (fst (assert.StringContains s u t)) =
      failure_reports t + (if strings.Contains s u then 0 else 1)
    /\ failure_reports (fst (assert.StringContainsf s u format args t)) =
      failure_reports t + (if strings.Contains s u then 0 else 1)
    /\ failure_reports (fst (assert.StringDoesNotContain s u t)) =
      failure_reports t + (if strings.Contains s u then 1 else 0)
    /\ failure_reports (fst (assert.StringDoesNotContainf s u format args t)) =
      failure_reports t + (if strings.Contains s u then 1 else 0)).
  { intros s u.
    change (assert.StringContains s u t) with (default (KStringContains s u) t).
    change (assert.StringDoesNotContain s u t)
      with (default (KStringDoesNotContain s u) t).
    change (assert.StringContainsf s u format args t)
      with (formatted (KStringContains s u) format args t).
    change (assert.StringDoesNotContainf s u format args t)
      with (formatted (KStringDoesNotContain s u) format args t).
    count_reports. destruct (strings.Contains s u); simpl; auto. }
  assert (self : strings.Contains str str = true).
  { apply Contains_occurs. exists EmptyString, EmptyString. simpl.
    clear. induction str as [|a s IH]; simpl; [reflexivity | now rewrite <- IH]. }
  assert (empty : strings.Contains str EmptyString = true).
  { apply Contains_occurs. now exists EmptyString, str. }
  split; [|split; [|split]].
  - destruct (R str substr) as [R1 [R2 [R3 R4]]]. rewrite R1, R2, R3, R4.
    rewrite <- Contains_occurs.
    destruct (strings.Contains str substr); repeat split; intros; try lia;
      try discriminate; try congruence.
  - destruct (R str EmptyString) as [R1 _]. rewrite R1, empty. lia.
  - destruct (R str str) as [R1 _]. rewrite R1, self. lia.
  - destruct (R str str) as [_ [_ [R3 _]]]. rewrite R3, self. lia.
Qed.

End StringFacts.

(** *** Equality and map keys at the types with a strict [==] *)

Section StrictFacts.

Import Go testing checks notions.

Lemma strict_bool : strict bool.
Proof. intros [|] [|]; simpl; auto; right; split; auto; discriminate. Qed.

Lemma strict_int : strict Z.
Proof.
  intros a b. simpl. destruct (Z.eqb_spec a b); [left | right]; auto.
Qed.

Lemma strict_string : strict string.
Proof.
  intros a b. simpl. destruct (String.eqb_spec a b); [left | right]; auto.
Qed.

Lemma strict_pointer {E} : strict (pointer E).
Proof.
  intros [[a|]] [[b|]]; simpl; try (right; split; [reflexivity | discriminate]).
  - destruct (Nat.eqb_spec a b) as [->|ne]; [left; auto | right].
    split; [reflexivity|]. intros E'. injection E' as E'. contradiction.
  - left; auto.
Qed.

(** At a type with a strict [==] ([bool], [int], [string], pointers),
    [Equal] and [Equalf] report no failure exactly when the two operands are
    identical and [NotEqual] and [NotEqualf] exactly when they are not; none
    of them panics. *)
Theorem Equal_passes_iff_identical {A} `{GoType A} `{comparable A}
    (x y : A) (format : string) (args : list any) (t : Recorder) :
  strict A ->
  ((failure_reports (fst (assert.Equal x y t)) = failure_reports t <-> x = y)
   /\ (failure_reports (fst (assert.Equalf x y format args t)) = failure_reports t
       <-> x = y)
   /\ (failure_reports (fst (assert.NotEqual x y t)) = failure_reports t <-> x <> y)
   /\ (failure_reports (fst (assert.NotEqualf x y format args t)) =
         failure_reports t <-> x <> y))
  /\ snd (assert.Equal x y t) = Normal tt
  /\ snd (assert.NotEqual x y t) = Normal tt.
Proof.
  intros S. split.
  - change (assert.Equal x y t) with (default (KEqual x y) t).
    change (assert.NotEqual x y t) with (default (KNotEqual x y) t).
    change (assert.Equalf x y format args t)
      with (formatted (KEqual x y) format args t).
    change (assert.NotEqualf x y format args t)
      with (formatted (KNotEqual x y) format args t).
    count_reports.
    destruct (S x y) as [[E I]|[E I]]; rewrite E; simpl;
      repeat split; intros; try lia; try assumption; try contradiction.
  - unfold assert.Equal, assert.NotEqual, assert.Equalf, assert.NotEqualf,
      go_neq, bind, call, eval, ret.
    destruct (S x y) as [[E _]|[E _]]; rewrite E; split; reflexivity.
Qed.

Lemma Equal_passes_iff_identical_witness :
  failure_reports (fst (assert.Equal "same" "same" [])) = 0
  /\ failure_reports (fst (assert.NotEqual "same" "same" [])) <> 0.
Proof.
  destruct (Equal_passes_iff_identical "same" "same" "f" [] [] strict_string)
    as [[E [_ [N _]]] _].
  split.
  - apply E. reflexivity.
  - intros P. apply N in P. now apply P.
Defined.

Lemma found_find {K V} (p : K * V -> bool) (l : list (K * V)) :
  assert.found (option_map snd (find p l)) = existsb p l.
Proof.
  induction l as [|e l IH]; simpl; [reflexivity|].
  destruct (p e); [reflexivity | exact IH].
Qed.

(** At a key type with a strict [==], [MapContainsKey] reports no failure
    exactly when the map has an entry for the key and
    [MapDoesNotContainKey] exactly when it has none; on the nil map and on
    the empty map every key is missing.  Neither panics. *)
Theorem MapContainsKey_passes_iff_entry {K V} `{GoType K} `{comparable K}
    (m : gomap K V) (key : K) (t : Recorder) :
  strict K ->
  ((failure_reports (fst (assert.MapContainsKey m key t)) = failure_reports t
      <-> exists v, In (key, v) (entries m))
   /\ (failure_reports (fst (assert.MapDoesNotContainKey m key t)) =
         failure_reports t <-> ~ exists v, In (key, v) (entries m)))
  /\ failure_reports (fst (assert.MapContainsKey (None : gomap K V) key t)) =
       failure_reports t + 1
  /\ failure_reports (fst (assert.MapContainsKey (Some [] : gomap K V) key t)) =
       failure_reports t + 1
  /\ snd (assert.MapContainsKey m key t) = Normal tt
  /\ snd (assert.MapDoesNotContainKey m key t) = Normal tt.
Proof.
  intros S.
  assert (Kk : go_eq key key = Some true).
  { destruct (S key key) as [[E _]|[_ ne]]; [exact E | now elim ne]. }
  assert (Ix : forall m' : gomap K V,
    map_index m' key =
    Some (match m' with
          | None => None
          | Some l => option_map snd (find (fun e => key_matches key (fst e)) l)
          end)).
  { intros m'. unfold map_index. now rewrite Kk. }
  assert (R : forall m' : gomap K V,
    failure_reports (fst (assert.MapContainsKey m' key t)) =
      failure_reports t +
      (if existsb (fun e => key_matches key (fst e)) (entries m') then 0 else 1)
    /\ failure_reports (fst (assert.MapDoesNotContainKey m' key t)) =
      failure_reports t +
      (if existsb (fun e => key_matches key (fst e)) (entries m') then 1 else 0)).
  { intros m'.
    change (assert.MapContainsKey m' key t)
      with (default (KMapContainsKey m' key) t).
    change (assert.MapDoesNotContainKey m' key t)
      with (default (KMapDoesNotContainKey m' key) t).
    count_reports. rewrite Ix. cbn [option_map].
    destruct m' as [l|]; cbn [entries]; rewrite ?found_find; simpl;
      [destruct (existsb _ l)|]; simpl; auto. }
  assert (X : existsb (fun e => key_matches key (fst e)) (entries m) = true
              <-> exists v, In (key, v) (entries m)).
  { rewrite existsb_exists. unfold key_matches. split.
    - intros [[k v] [i M]]. simpl in M. exists v.
      destruct (S k key) as [[_ ->]|[E _]]; [exact i|].
      rewrite E in M. discriminate.
    - intros [v i]. exists (key, v). split; [exact i|]. simpl. now rewrite Kk. }
  split; [|split; [|split]].
  - destruct (R m) as [R1 R2]. rewrite R1, R2, <- X.
    destruct (existsb _ (entries m)); repeat split; intros; try lia;
      try discriminate; try congruence.
  - destruct (R None) as [R1 _]. rewrite R1. reflexivity.
  - destruct (R (Some [])) as [R1 _]. rewrite R1. reflexivity.
  - unfold assert.MapContainsKey, assert.MapDoesNotContainKey,
      assert.MapContainsKeyf, assert.MapDoesNotContainKeyf, bind, call, eval, ret.
    rewrite Ix.
    destruct (assert.found _); split; reflexivity.
Qed.

Lemma MapContainsKey_passes_iff_entry_witness :
  failure_reports
    (fst (assert.MapContainsKey (Some [("foo", "bar")] : gomap string string)
            "foo" [])) = 0.
Proof.
  destruct (MapContainsKey_passes_iff_entry
              (Some [("foo", "bar")] : gomap string string) "foo" []
              strict_string) as [[E _] _].
  apply E. exists "bar". simpl. left. reflexivity.
Defined.

End StrictFacts.

(** *** Map keys and emptiness *)

Section MapFacts.

Import Go testing checks notions.

(** When [MapContainsKey] passes for some key, at any key type, the map is
    not empty: [NotEmptyMap] passes and [EmptyMap] reports a failure. *)
Theorem MapContainsKey_implies_NotEmptyMap {K V}
    `{GoType K} `{GoType V} `{comparable K}
    (m : gomap K V) (key : K) (t : Recorder) :
  snd (assert.MapContainsKey m key t) = Normal tt ->
  failure_reports (fst (assert.MapContainsKey m key t)) = failure_reports t ->
  failure_reports (fst (assert.NotEmptyMap m t)) = failure_reports t
  /\ failure_reports (fst (assert.EmptyMap m t)) = failure_reports t + 1.
Proof.
  change (assert.MapContainsKey m key t)
    with (default (KMapContainsKey m key) t).
  change (assert.NotEmptyMap m t) with (default (KNotEmptyMap m) t).
  change (assert.EmptyMap m t) with (default (KEmptyMap m) t).
  rewrite default_Recorder. cbn [evaluate helper_calls].
  intros C R. count_reports.
  destruct (map_index m key) as [r|] eqn:Ix; cbn [option_map decided] in C, R;
    [|discriminate C].
  destruct (assert.found r) eqn:F.
  - assert (L : Nat.eqb (map_len m) 0 = false).
    { unfold map_index in Ix. destruct (go_eq key key); [|discriminate].
      injection Ix as <-. destruct m as [[|e l]|]; simpl in *;
        try discriminate; reflexivity. }
    rewrite L. simpl. lia.
  - cbn [verdict fst] in R. simpl Errorf in R. unfold record in R.
    rewrite !failure_reports_app, failure_reports_single in R.
    change (failure_reports [CHelper; CHelper]) with 0 in R.
    simpl in R. lia.
Qed.

Lemma MapContainsKey_implies_NotEmptyMap_witness :
  failure_reports
    (fst (assert.NotEmptyMap (Some [("foo", "bar")] : gomap string string) [])) = 0
  /\ failure_reports
       (fst (assert.EmptyMap (Some [("foo", "bar")] : gomap string string) [])) = 1.
Proof.
  apply (MapContainsKey_implies_NotEmptyMap
           (Some [("foo", "bar")] : gomap string string) "foo" []);
    reflexivity.
Defined.

End MapFacts.

(** *** Checks run on a spy *)

Section SpyHarness.

Import Go testing checks notions.

Lemma iter_Helper_spy {W} `{TB W} (k : nat) (s : spy.TBSpy W) :
  Nat.iter k Helper s =
  {| spy.TB := Nat.iter k Helper (spy.TB s); spy.failed := spy.failed s |}.
Proof.
  induction k as [|k IH]; [now destruct s|].
  change (Nat.iter (S k) Helper s) with (Helper (Nat.iter k Helper s)).
  rewrite IH. reflexivity.
Qed.

(** A check given a spy as its context: when its predicate does not hold
    the spy takes the report, setting its flag, and hands the message to the
    wrapped context on [Logf] after a helper mark; when it holds, or when
    evaluating it panics, the spy and the wrapped context are left as the
    evaluation left them.  The wrapped context receives no failure report
    either way. *)
Theorem check_on_spy_records_verdict
    (c : check (spy.TBSpy Recorder)) (format : string) (args : list any)
    (s : spy.TBSpy Recorder) :
  let e := evaluate c (Nat.iter (helper_calls c) Helper s) in
  let r := formatted c format args s in
  spy.failed (fst r) =
    (spy.failed (fst e) ||
     match snd e with Decided false | Exited false => true | _ => false end)
  /\ spy.TB (fst r) =
       spy.TB (fst e) ++ match snd e with
                         | Decided false | Exited false =>
                             [CHelper; CLogf format args]
                         | _ => []
                         end
  /\ failure_reports (spy.TB (fst r)) = failure_reports (spy.TB (fst e))
  /\ snd r = completes (snd e).
Proof.
  cbv zeta. rewrite formatted_run.
  destruct (evaluate c (Nat.iter (helper_calls c) Helper s))
    as [pre [[|]|[|]|v]];
    cbn [verdict fst snd completes]; rewrite ?orb_false_r, ?app_nil_r; auto;
    destruct pre as [w fl]; simpl; unfold record;
    rewrite orb_true_r, <- app_assoc, failure_reports_app; simpl;
    repeat split;
    change (failure_reports [CHelper; CLogf format args]) with 0; lia.
Qed.

(** The pattern of the tests that are expected to fail: a default-message
    check is run on a fresh spy, and then a verification helper.  Provided
    that evaluating the predicate of the check decides it and leaves the spy
    alone (no panic, and no procedure that reports on the spy or stops the
    goroutine): when the predicate holds, the spy has seen no failure,
    [ExpectFailure] reports one failure on the context of the test and
    [ExpectSuccess] none; when it does not hold, the spy has seen the
    failure, [ExpectFailure] reports nothing and [ExpectSuccess] one
    failure. *)
Theorem spy_turns_the_verdict_around
    (c : check (spy.TBSpy Recorder)) (t : Recorder) (b : bool) :
  let s0 := Nat.iter (helper_calls c) Helper (Helper (spy.SpyOn t)) in
  evaluate c s0 = (s0, Decided b) ->
  let s := fst (default c (spy.SpyOn t)) in
  spy.SpiedOnAFailure s = negb b
  /\ failure_reports (spy.TB (fst (spy.ExpectFailure s))) =
       failure_reports t + (if b then 1 else 0)
  /\ failure_reports (spy.TB (fst (spy.ExpectSuccess s))) =
       failure_reports t + (if b then 0 else 1).
Proof.
  cbv zeta. intros E. rewrite default_run, formatted_run, E.
  rewrite !ExpectFailure_run, !ExpectSuccess_run. unfold spy.SpiedOnAFailure.
  rewrite iter_Helper_spy. cbn [spy.TB spy.failed].
  change (spy.TB (Helper (spy.SpyOn t))) with (t ++ [CHelper]).
  change (spy.failed (Helper (spy.SpyOn t))) with false.
  rewrite iter_Helper.
  destruct b; cbn [verdict fst snd spy.TB spy.failed negb]; simpl Helper;
    simpl Errorf; cbn [spy.TB spy.failed spy.on_TB spy.set_failed spy.Errorf];
    simpl; unfold record;
    rewrite ?failure_reports_app, ?failure_reports_single,
      ?failure_reports_helpers; simpl; repeat split; lia.
Qed.

Lemma spy_turns_the_verdict_around_witness :
  let s := fst (assert.True false (spy.SpyOn ([] : Recorder))) in
  spy.SpiedOnAFailure s = true
  /\ failure_reports (spy.TB (fst (spy.ExpectFailure s))) = 0
  /\ failure_reports (spy.TB (fst (spy.ExpectSuccess s))) = 1.
Proof.
  exact (spy_turns_the_verdict_around (KTrue false) [] false eq_refl).
Defined.

End SpyHarness.

(** *** The spy between its verifications *)

Section SpyBetween.

Import Go testing checks notions.

Lemma forwarded_unverified (flag flag' : bool) (o : spy.Op) :
  verifies o = false ->
  spec.forwarded flag o = spec.forwarded flag' o /\
  Forall (fun c => is_passthrough c = true) (spec.forwarded flag o).
Proof.
  destruct o; simpl; try discriminate; intros _; split; try reflexivity;
    repeat constructor.
Qed.

Lemma run_TB_unverified {W} `{TB W} (flag : bool) (ops : list spy.Op)
    (s : spy.TBSpy W) :
  existsb verifies ops = false ->
  spy.TB (spy.run ops s) =
    replay (flat_map (spec.forwarded flag) ops) (spy.TB s) /\
  Forall (fun c => is_passthrough c = true)
    (flat_map (spec.forwarded flag) ops).
Proof.
  revert s. induction ops as [|o ops IH]; intros s A.
  - split; [reflexivity | constructor].
  - simpl in A. apply orb_false_iff in A as [Ao A].
    change (spy.run (o :: ops) s) with (spy.run ops (spy.step s o)).
    destruct (IH (spy.step s o) A) as [E F].
    destruct (forwarded_unverified flag (spy.failed s) o Ao) as [Ef Ff].
    split.
    + rewrite E, step_TB. simpl. rewrite replay_app, Ef. reflexivity.
    + simpl. apply Forall_app. split; assumption.
Qed.

(** Whatever is called on a spy short of [ExpectFailure] and
    [ExpectSuccess] (its six failure operations, its query, and [Helper],
    [Log], [Logf] and [Failed], which it takes from the wrapped context),
    the wrapped context receives no failure report.  [SpiedOnAFailure] then
    tells whether a failure operation was called, while [Failed()] on the
    spy does not: it is the wrapped context's answer, unchanged. *)
Theorem spy_hides_failures_until_verified
    (ops : list spy.Op) (t : Recorder) :
  existsb verifies ops = false ->
  let s := spy.run ops (spy.SpyOn t) in
  failure_reports (spy.TB s) = failure_reports t
  /\ Failed s = Failed t
  /\ spy.SpiedOnAFailure s = existsb spy.intercepted ops.
Proof.
  intros A. cbv zeta.
  destruct (run_TB_unverified true ops (spy.SpyOn t) A) as [E F].
  change (Failed (spy.run ops (spy.SpyOn t)))
    with (Failed (spy.TB (spy.run ops (spy.SpyOn t)))).
  rewrite E, replay_Recorder. cbn [spy.TB spy.SpyOn].
  split; [|split].
  - rewrite failure_reports_app, (failure_reports_passthrough _ F). lia.
  - rewrite Failed_app, (Failed_passthrough _ F). apply orb_false_r.
  - unfold spy.SpiedOnAFailure. rewrite run_failed. reflexivity.
Qed.

Lemma spy_hides_failures_until_verified_witness :
  let s := spy.run [spy.OHelper; spy.OError []; spy.OLog []; spy.OFailNow]
             (spy.SpyOn ([] : Recorder)) in
  failure_reports (spy.TB s) = 0
  /\ Failed s = false
  /\ spy.SpiedOnAFailure s = true.
Proof.
  exact (spy_hides_failures_until_verified
           [spy.OHelper; spy.OError []; spy.OLog []; spy.OFailNow] [] eq_refl).
Defined.

(** In every state of a spy exactly one of [ExpectFailure] and
    [ExpectSuccess] reports on the wrapped context, once and not fatally;
    neither changes the flag, so a helper that is called again reports
    again. *)
Theorem spy_verifications_are_opposite (s : spy.TBSpy Recorder) :
  let unmet := if spy.failed s then 0 else 1 in
  failure_reports (spy.TB (fst (spy.ExpectFailure s))) =
    failure_reports (spy.TB s) + unmet
  /\ failure_reports (spy.TB (fst (spy.ExpectSuccess s))) =
       failure_reports (spy.TB s) + (1 - unmet)
  /\ fatal_reports (spy.TB (fst (spy.ExpectFailure s))) = fatal_reports (spy.TB s)
  /\ fatal_reports (spy.TB (fst (spy.ExpectSuccess s))) = fatal_reports (spy.TB s)
  /\ spy.failed (fst (spy.ExpectFailure s)) = spy.failed s
  /\ spy.failed (fst (spy.ExpectSuccess s)) = spy.failed s
  /\ failure_reports
       (spy.TB (fst (spy.ExpectFailure (fst (spy.ExpectFailure s))))) =
       failure_reports (spy.TB s) + unmet + unmet.
Proof.
  cbv zeta. rewrite !ExpectFailure_run, !ExpectSuccess_run.
  destruct s as [w [|]]; simpl; unfold record;
    rewrite ?failure_reports_app, ?fatal_reports_app, ?failure_reports_single,
      ?fatal_reports_single; simpl; repeat split; lia.
Qed.

End SpyBetween.

(** *** Repeated checks *)

Section RepeatedChecks.

Import Go testing checks notions.

(** A check does not remember what it reported: called [n] times in a row
    on the same inputs (whose evaluation leaves the context alone), a
    failing check reports [n] times and a passing one never. *)
Theorem repeated_check_reports_every_time
    (c : check Recorder) (format : string) (args : list any)
    (b : bool) (n : nat) (t : Recorder) :
  (forall u, evaluate c u = (u, Decided b)) ->
  failure_reports (fst (repeatedly n (formatted c format args) t)) =
    failure_reports t + n * (if b then 0 else 1)
  /\ snd (repeatedly n (formatted c format args) t) = Normal tt.
Proof.
  intros E. revert t. induction n as [|n IH]; intros t.
  - simpl. split; [lia | reflexivity].
  - cbn [repeatedly]. unfold bind. rewrite formatted_Recorder, E.
    destruct b; cbn [verdict]; lazy beta iota.
    + destruct (IH (t ++ repeat CHelper (helper_calls c))) as [R C].
      rewrite R, C, helpers_reports. split; [lia | reflexivity].
    + match goal with
      | |- context [repeatedly n _ ?u] => destruct (IH u) as [R C]
      end.
      rewrite R, C. simpl Errorf. unfold record.
      rewrite failure_reports_app, failure_reports_single, helpers_reports.
      simpl. split; [lia | reflexivity].
Qed.

Lemma repeated_check_reports_every_time_witness :
  failure_reports
    (fst (repeatedly 3 (assert.Equalf 1%Z 2%Z "expected %v" []) [])) = 3.
Proof.
  exact (proj1 (repeated_check_reports_every_time
                  (KEqual 1%Z 2%Z) "expected %v" [] false 3 []
                  (fun u => eq_refl))).
Defined.

End RepeatedChecks.

(** *** ErrorIs through wrapping *)

Section ErrorWrapping.

Import Go testing checks notions.

Lemma Is_wrapped (e : errors.value) (tg : errors.value) (h : errors.header)
    (cs : list (option errors.value)) :
  errors.Is (Some e) (Some tg) = inr true ->
  In (Some e) cs ->
  errors.Is (Some (errors.Wrap h (Some e))) (Some tg) <> inr false
  /\ errors.Is (Some (errors.Join h cs)) (Some tg) <> inr false.
Proof.
  intros I i.
  assert (M : spec.IsMatch tg e) by now apply (is_IsMatch tg e true).
  split; intros R.
  - apply (is_IsMatch tg _ false) in R.
    assert (F : false = true); [|discriminate F].
    apply R. apply spec.is_cause with e; [constructor | exact M].
  - apply (is_IsMatch tg _ false) in R.
    assert (F : false = true); [|discriminate F].
    apply R. apply spec.is_cause with e; [now constructor | exact M].
Qed.

(** An error that passes [ErrorIs] against a target is never reported when
    it is wrapped, by an error with [Unwrap() error] or as one of the errors
    of an [Unwrap() []error]: on the wrapping error [ErrorIs] passes, or it
    panics where a [==] or an [Is] method of an error walked before panics;
    and [ErrorIsNot] on it reports exactly when it returns.  Wrapped by
    [fmt.Errorf] with [%w], it passes. *)
Theorem ErrorIs_survives_wrapping
    (e : errors.value) (target : errors.error) (h : errors.header)
    (cs : list (option errors.value)) (n : nat) (t : Recorder) :
  failure_reports (fst (assert.ErrorIs (Some e) target t)) = failure_reports t ->
  snd (assert.ErrorIs (Some e) target t) = Normal tt ->
  In (Some e) cs ->
  let wrapped := Some (errors.Wrap h (Some e)) in
  let joined := Some (errors.Join h cs) in
  let pointed := Some (errors.Errorf_w n (Some e)) in
  failure_reports (fst (assert.ErrorIs wrapped target t)) = failure_reports t
  /\ failure_reports (fst (assert.ErrorIs joined target t)) = failure_reports t
  /\ failure_reports (fst (assert.ErrorIsNot wrapped target t)) =
       failure_reports t +
       match snd (assert.ErrorIsNot wrapped target t) with
       | Normal _ => 1
       | _ => 0
       end
  /\ failure_reports (fst (assert.ErrorIsNot joined target t)) =
       failure_reports t +
       match snd (assert.ErrorIsNot joined target t) with
       | Normal _ => 1
       | _ => 0
       end
  /\ snd (assert.ErrorIs pointed target t) = Normal tt
  /\ failure_reports (fst (assert.ErrorIs pointed target t)) = failure_reports t
  /\ failure_reports (fst (assert.ErrorIsNot pointed target t)) =
       failure_reports t + 1.
Proof.
  intros P C i. cbv zeta.
  destruct (ErrorIs_reports (Some e) target EmptyString [] t)
    as [[R _] [D _]].
  assert (I : errors.Is (Some e) target = inr true).
  { rewrite D in C. rewrite R in P.
    destruct (errors.Is (Some e) target) as [v|[|]];
      [discriminate C | reflexivity | lia]. }
  destruct target as [tg|]; [|discriminate I].
  destruct (Is_wrapped e tg h cs I i) as [W J].
  assert (Q' : errors.Is (Some (errors.Errorf_w n (Some e))) (Some tg) = inr true).
  { cbn [errors.Is] in *. rewrite is_unfold. unfold errors.Errorf_w.
    cbn [errors.head]. unfold errors.test.
    cbn [errors.equals errors.is_method]. unfold errors.pointer_equals.
    rewrite I.
    destruct (errors.comparable_type (errors.head tg)),
             (Nat.eqb n (errors.ident (errors.head tg))); reflexivity. }
  destruct (ErrorIs_reports (Some (errors.Wrap h (Some e))) (Some tg)
              EmptyString [] t) as [[R1 [_ [R2 _]]] [_ [_ [D2 _]]]].
  destruct (ErrorIs_reports (Some (errors.Join h cs)) (Some tg)
              EmptyString [] t) as [[R3 [_ [R4 _]]] [_ [_ [D4 _]]]].
  destruct (ErrorIs_reports (Some (errors.Errorf_w n (Some e))) (Some tg)
              EmptyString [] t) as [[R5 [_ [R6 _]]] [D5 _]].
  rewrite R1, R2, R3, R4, R5, R6, D2, D4, D5, Q'.
  destruct (errors.Is (Some (errors.Wrap h (Some e))) (Some tg)) as [v|[|]];
    destruct (errors.Is (Some (errors.Join h cs)) (Some tg)) as [v'|[|]];
    try (now elim W); try (now elim J); repeat split; lia.
Qed.

Lemma ErrorIs_survives_wrapping_witness :
  failure_reports
    (fst (assert.ErrorIs
            (Some (errors.Errorf_w 2 (Some (errors.Errorf_w 1 (Some (errors.New 0))))))
            (Some (errors.New 0)) [])) = 0.
Proof.
  refine (proj1 (ErrorIs_survives_wrapping
                   (errors.Errorf_w 1 (Some (errors.New 0)))
                   (Some (errors.New 0))
                   {| errors.ident := 2; errors.comparable_type := true;
                      errors.equals := errors.pointer_equals 2;
                      errors.is_method := None |}
                   [Some (errors.Errorf_w 1 (Some (errors.New 0)))] 2 [] _ _ _)).
  - reflexivity.
  - reflexivity.
  - left. reflexivity.
Defined.

(** [ErrorIs(t, err, err)] passes and [ErrorIsNot(t, err, err)] reports for
    the nil error, and for an error of a comparable type on which
    [err == err] holds: the errors made by [errors.New] and by [fmt.Errorf]
    are such, being pointers. *)
Theorem ErrorIs_reflexive (err : errors.error) (n : nat) (cause : errors.error)
    (t : Recorder) :
  match err with
  | None => True
  | Some e =>
      errors.comparable_type (errors.head e) = true
      /\ errors.equals (errors.head e) (errors.ident (errors.head e)) = inr true
  end ->
  (failure_reports (fst (assert.ErrorIs err err t)) = failure_reports t
   /\ failure_reports (fst (assert.ErrorIsNot err err t)) = failure_reports t + 1
   /\ snd (assert.ErrorIs err err t) = Normal tt)
  /\ failure_reports
       (fst (assert.ErrorIs (Some (errors.New n)) (Some (errors.New n)) t)) =
       failure_reports t
  /\ failure_reports
       (fst (assert.ErrorIs (Some (errors.Errorf_w n cause))
               (Some (errors.Errorf_w n cause)) t)) = failure_reports t.
Proof.
  intros C.
  assert (core : forall e : errors.value,
    errors.comparable_type (errors.head e) = true ->
    errors.equals (errors.head e) (errors.ident (errors.head e)) = inr true ->
    errors.Is (Some e) (Some e) = inr true).
  { intros e Ce Ee. simpl. rewrite is_unfold. unfold errors.test.
    rewrite Ce, Ee. reflexivity. }
  assert (I : errors.Is err err = inr true).
  { destruct err as [e|]; [|reflexivity]. destruct C as [Ce Ee].
    now apply core. }
  destruct (ErrorIs_reports err err EmptyString [] t)
    as [[R1 [_ [R2 _]]] [D _]].
  destruct (ErrorIs_reports (Some (errors.New n)) (Some (errors.New n))
              EmptyString [] t) as [[R3 _] _].
  destruct (ErrorIs_reports (Some (errors.Errorf_w n cause))
              (Some (errors.Errorf_w n cause)) EmptyString [] t) as [[R4 _] _].
  rewrite R1, R2, R3, R4, D, I.
  rewrite (core (errors.New n)), (core (errors.Errorf_w n cause));
    try reflexivity;
    try (simpl; unfold errors.pointer_equals; now rewrite Nat.eqb_refl).
  repeat split; lia.
Qed.

Lemma ErrorIs_reflexive_witness :
  failure_reports (fst (assert.ErrorIs (Some (errors.New 7)) (Some (errors.New 7)) []))
  = 0.
Proof.
  exact (proj1 (proj1 (ErrorIs_reflexive (Some (errors.New 7)) 0 None []
                         (conj eq_refl eq_refl)))).
Defined.

End ErrorWrapping.

(** *** True and False *)

Section BooleanChecks.

Import Go testing checks notions.

(** [True] and [Truef] report no failure exactly on [true], [False] and
    [Falsef] exactly on [false]; they go through [Equalf] at type [bool],
    mark themselves and it as helpers, and never panic. *)
Theorem True_False_pass_on_their_value
    (actual : bool) (format : string) (args : list any) (t : Recorder) :
  ((failure_reports (fst (assert.True actual t)) = failure_reports t
      <-> actual = true)
   /\ (failure_reports (fst (assert.Truef actual format args t)) = failure_reports t
       <-> actual = true)
   /\ (failure_reports (fst (assert.False actual t)) = failure_reports t
       <-> actual = false)
   /\ (failure_reports (fst (assert.Falsef actual format args t)) = failure_reports t
       <-> actual = false))
  /\ assert.Truef actual format args t =
       assert.Equalf true actual format args (t ++ [CHelper])
  /\ assert.Falsef actual format args t =
       assert.Equalf false actual format args (t ++ [CHelper])
  /\ assert.Truef actual format args t =
       (if actual then t ++ [CHelper; CHelper]
        else t ++ [CHelper; CHelper; CErrorf format args], Normal tt)
  /\ assert.Falsef actual format args t =
       (if actual then t ++ [CHelper; CHelper; CErrorf format args]
        else t ++ [CHelper; CHelper], Normal tt).
Proof.
  split; [|split; [reflexivity|split; [reflexivity|]]].
  - change (assert.True actual t) with (default (KTrue actual) t).
    change (assert.False actual t) with (default (KFalse actual) t).
    change (assert.Truef actual format args t)
      with (formatted (KTrue actual) format args t).
    change (assert.Falsef actual format args t)
      with (formatted (KFalse actual) format args t).
    count_reports.
    destruct actual; simpl; repeat split; intros; try lia; try discriminate;
      try reflexivity.
  - destruct actual; split; cbv [assert.Truef assert.Falsef assert.Equalf bind
      call eval ret go_neq go_eq comparable_bool option_map Bool.eqb negb];
      simpl Helper; simpl Errorf; unfold record; rewrite <- ?app_assoc;
      reflexivity.
Qed.

End BooleanChecks.

(** *** A check called inside Panics or DoesNotPanic *)

Section ContainedPanics.

Import Go testing checks notions.

(** When the procedure given to [Panicsf] or [DoesNotPanicf] is itself a
    check of the package: a panic of that check (of its [==], its map index
    or its [errors.Is]) is recovered, [Panicsf] passes and returns the
    payload the inner check panicked with, [DoesNotPanicf] reports it, and
    both return normally; when the inner check returns, whether it passes or
    fails, [Panicsf] reports and returns nil and [DoesNotPanicf] passes;
    when the procedure of the inner check stops the goroutine, neither
    returns. *)
Theorem checks_panic_is_contained
    (c : check Recorder) (format format' : string) (args args' : list any)
    (t : Recorder) :
  let inner := formatted c format args in
  let after := fst (inner (t ++ [CHelper])) in
  match snd (inner (t ++ [CHelper])) with
  | Panicking payload =>
      evaluable c = false
      /\ assert.Panicsf inner format' args' t = (after, Normal (Some payload))
      /\ assert.DoesNotPanicf inner format' args' t =
           (after ++ [CErrorf format' args'], Normal tt)
  | Normal _ =>
      evaluable c = true
      /\ assert.Panicsf inner format' args' t =
           (after ++ [CErrorf format' args'], Normal None)
      /\ assert.DoesNotPanicf inner format' args' t = (after, Normal tt)
  | Exiting =>
      evaluable c = true
      /\ snd (procedure c ((t ++ [CHelper]) ++ repeat CHelper (helper_calls c))) =
           Exiting
      /\ assert.Panicsf inner format' args' t =
           (after ++ [CErrorf format' args'], Exiting)
      /\ assert.DoesNotPanicf inner format' args' t = (after, Exiting)
  end.
Proof.
  cbv zeta.
  pose proof (evaluate_evaluable c
                ((t ++ [CHelper]) ++ repeat CHelper (helper_calls c))) as Ev.
  pose proof (evaluate_exits c
                ((t ++ [CHelper]) ++ repeat CHelper (helper_calls c))) as X.
  pose proof (formatted_Recorder c format args (t ++ [CHelper])) as F.
  rewrite Panicsf_run, DoesNotPanicf_run. simpl Helper. unfold record.
  destruct (evaluate c ((t ++ [CHelper]) ++ repeat CHelper (helper_calls c)))
    as [pre [[|]|[|]|v]]; cbn [snd] in Ev, X; rewrite Ev, F;
    cbn [verdict fst snd]; repeat split; auto.
Qed.

End ContainedPanics.
